(** * burrowDB: a file-per-entity object store

    A shallow embedding of [db.go] (package [burrowdb]) and a verification of
    its identifier resolution, its path derivation and its Put/GetByID round
    trip.

    The program is a thin layer over packages of the Go distribution, which
    are modelled as follows.

    - [reflect]: a type descriptor is a finite tree ([reflect.rtype]); an
      interface value ([any]) is the untyped nil or a descriptor with a
      value.  Structs declare all their fields themselves (no embedded
      fields), and floating-point values are left out.
    - [errors] and [fmt.Errorf]: an error value records whether the call that
      made it wraps its operand ([%w]) or only prints it ([%v]).
    - [os]: the durable store the program delegates to, addressed by the
      path as written: a path holds a regular file, a directory or nothing,
      and a fault can be injected at a path.  The directories on the way to a
      path are the prefixes of it that a separator follows: [os.MkdirAll]
      creates them, and a regular file among them makes a call fail with
      ENOTDIR.  The store does not resolve ".", "..", repeated separators or
      links, and compares names byte by byte; where that matters, a theorem
      asks for plain names ([plain_name], [clean_path]) or speaks of where
      the paths lead ([resolve]).  A fault is a failure to open or to create;
      a write that fails half way is not modelled, and no theorem says what a
      file holds after a [Put] that failed in the write.
    - [encoding/json] and the [%v] verb of [fmt]: an interface ([Runtime])
      the program is parametric in, byte sequences included.  Every theorem
      on [Put] and [GetByID] holds for every runtime.  Module [Json] is a
      runtime that follows [encoding/json] and [fmt] on booleans, integers,
      strings, structs, pointers and channels; the program is run on it, on
      the records of module [Examples].

    Every call the program makes outside itself is logged in the world it
    runs in, so that "no call is made" is a statement about the log.

    The loop of [Put] takes the address of its loop variable.  The embedding
    follows Go 1.22, where each iteration has a variable of its own; that is
    the semantics under which the program of [cmd/main.go] finds the entity
    it has just stored. *)

From Stdlib Require Import ZArith String Ascii List Permutation DecimalString DecimalZ.
From stdpp Require Import base option list gmap strings.

Local Open Scope string_scope.
Set Warnings "-register-all".

(** ** Package reflect *)

Module reflect.

(** The kinds the embedding covers (a subset of [reflect.Kind]). *)
Inductive Kind := Bool | Int | Int64 | String | Struct | Pointer | Chan.

(** A struct tag, as the key/value pairs [StructTag.Get] parses it into. *)
Definition StructTag := list (string * string).

(** [StructTag.Get]: the value of the first pair under [key], or the empty
    string. *)
Fixpoint Get (tag : StructTag) (key : string) : string :=
  match tag with
  | [] => ""
  | (k, v) :: rest => if String.eqb k key then v else Get rest key
  end.

(** Type descriptors.  [TNamed] is a defined type ([type T U]); the
    predeclared types are named too. *)
Inductive rtype :=
| TBool | TInt | TInt64 | TString
| TChan (elem : rtype)
| TPtr (elem : rtype)
| TStruct (fields : list StructField)
| TNamed (pkgPath name : string) (underlying : rtype)
with StructField :=
| Field (name : string) (tag : StructTag) (type : rtype).

Definition Name_of (f : StructField) : string := let 'Field n _ _ := f in n.
Definition Tag (f : StructField) : StructTag := let 'Field _ t _ := f in t.
Definition Type_of (f : StructField) : rtype := let 'Field _ _ t := f in t.

(** [Type.Kind]. *)
Fixpoint Kind_of (t : rtype) : Kind :=
  match t with
  | TBool => Bool | TInt => Int | TInt64 => Int64 | TString => String
  | TChan _ => Chan | TPtr _ => Pointer
  | TStruct _ => Struct
  | TNamed _ _ u => Kind_of u
  end.

(** [Type.Name]: the name of a defined type within its package, and the
    empty string for the other types. *)
Definition Name (t : rtype) : string :=
  match t with
  | TBool => "bool" | TInt => "int" | TInt64 => "int64" | TString => "string"
  | TNamed _ name _ => name
  | _ => ""
  end.

(** [Type.PkgPath]. *)
Definition PkgPath (t : rtype) : string :=
  match t with
  | TNamed pkg _ _ => pkg
  | _ => ""
  end.

(** [Type.Elem]; [None] where Go panics (a type without elements). *)
Fixpoint Elem (t : rtype) : option rtype :=
  match t with
  | TChan e | TPtr e => Some e
  | TNamed _ _ u => Elem u
  | _ => None
  end.

(** [reflect.VisibleFields], for a struct whose fields are all declared
    in the struct itself: its fields in declaration order.  [None] where Go
    panics (not a struct). *)
Fixpoint VisibleFields (t : rtype) : option (list StructField) :=
  match t with
  | TStruct fields => Some fields
  | TNamed _ _ u => VisibleFields u
  | _ => None
  end.

(** [StructField.IsExported]: the name starts with an upper-case letter
    (ASCII here). *)
Definition IsExported (f : StructField) : bool :=
  match Name_of f with
  | String.String c _ => (65 <=? nat_of_ascii c)%nat && (nat_of_ascii c <=? 90)%nat
  | EmptyString => false
  end.

End reflect.

Import reflect.

(** Go values. A pointer is modelled by the variable it points at ([None] for
    the nil pointer); a channel by its address. *)
Inductive Value :=
| VBool (b : bool)
| VInt (z : Z)
| VString (s : string)
| VChan (addr : N)
| VPtr (cell : option Value)
| VStruct (fields : list Value).

(** An interface value: the untyped nil ([None]) or a value with its dynamic
    type. *)
Definition any : Type := option (rtype * Value).

(** [reflect.TypeOf]: the nil descriptor for the nil interface. *)
Definition TypeOf (v : any) : option rtype := fst <$> v.

(** A [reflect.Value]; [None] is the zero (invalid) Value. *)
Definition reflect_Value : Type := option (rtype * Value).

Definition ValueOf (v : any) : reflect_Value := v.

Fixpoint field_lookup (fields : list StructField) (vals : list Value)
    (name : string) : reflect_Value :=
  match fields, vals with
  | f :: fields', x :: vals' =>
      if String.eqb (Name_of f) name then Some (Type_of f, x)
      else field_lookup fields' vals' name
  | _, _ => None
  end.

(** [Value.FieldByName] on a struct value: the field of that name, or the
    zero Value.  Go panics on a value that is not a struct, and on the way
    through an embedded nil pointer; [Put] calls it on a struct only, and the
    structs here have no embedded fields. *)
Definition FieldByName (v : reflect_Value) (name : string) : reflect_Value :=
  match v with
  | Some (t, VStruct vals) =>
      match VisibleFields t with
      | Some fields => field_lookup fields vals name
      | None => None
      end
  | _ => None
  end.

(** The zero value of a type ([reflect.Zero]). *)
Fixpoint zero (t : rtype) : Value :=
  match t with
  | TBool => VBool false
  | TInt | TInt64 => VInt 0
  | TString => VString ""
  | TChan _ => VChan 0
  | TPtr _ => VPtr None
  | TStruct fields => VStruct (map (λ f, let 'Field _ _ ty := f in zero ty) fields)
  | TNamed _ _ u => zero u
  end.

(** [&x] for a variable [x] of type [t] that holds [cur]. *)
Definition pointer_to (t : rtype) (cur : Value) : any := Some (TPtr t, VPtr (Some cur)).

(** [&T{}]: a pointer to a fresh variable of type [t]. *)
Definition new (t : rtype) : any := pointer_to t (zero t).

(** ** Error values *)

(** The errnos the embedding covers, and their numbers (on Linux, where
    ENOTSUP is EOPNOTSUPP). *)
Inductive errno :=
| EPERM | ENOENT | EIO | EACCES | EEXIST | ENOTDIR | EISDIR | ENOSPC
| ENOSYS | ENOTEMPTY | EOPNOTSUPP.

Definition errno_number (e : errno) : nat :=
  match e with
  | EPERM => 1 | ENOENT => 2 | EIO => 5 | EACCES => 13 | EEXIST => 17
  | ENOTDIR => 20 | EISDIR => 21 | ENOSPC => 28 | ENOSYS => 38
  | ENOTEMPTY => 39 | EOPNOTSUPP => 95
  end.

Inductive GoError :=
| errors_New (text : string)                  (* a package-level errors.New value *)
| Errno (e : errno)                           (* syscall.Errno *)
| PathError (Op Path : string) (Err : GoError) (* *fs.PathError *)
| JsonError (text : string)                   (* an error of encoding/json *)
| wrapError (msg : string) (err : GoError)    (* fmt.Errorf with one %w *)
| errorString (msg : string).                 (* fmt.Errorf without %w *)

Definition strerror (e : errno) : string :=
  match e with
  | EPERM => "operation not permitted"
  | ENOENT => "no such file or directory"
  | EIO => "input/output error"
  | EACCES => "permission denied"
  | EEXIST => "file exists"
  | ENOTDIR => "not a directory"
  | EISDIR => "is a directory"
  | ENOSPC => "no space left on device"
  | ENOSYS => "function not implemented"
  | ENOTEMPTY => "directory not empty"
  | EOPNOTSUPP => "operation not supported"
  end.

(** The [Error] method. *)
Fixpoint Error (err : GoError) : string :=
  match err with
  | errors_New text => text
  | Errno e => strerror e
  | PathError op path inner => op +:+ " " +:+ path +:+ ": " +:+ Error inner
  | JsonError text => text
  | wrapError msg _ => msg
  | errorString msg => msg
  end.

(** [fmt.Errorf(prefix + "%w", err)] and [fmt.Errorf(prefix + "%v", err)]:
    the same text; only the first keeps [err] for [Unwrap]. *)
Definition Errorf_w (prefix : string) (err : GoError) : GoError :=
  wrapError (prefix +:+ Error err) err.

Definition Errorf_v (prefix : string) (err : GoError) : GoError :=
  errorString (prefix +:+ Error err).

(** [errors.Unwrap]. *)
Definition Unwrap (err : GoError) : option GoError :=
  match err with
  | PathError _ _ inner => Some inner
  | wrapError _ inner => Some inner
  | _ => None
  end.

Definition os_ErrNotExist : GoError := errors_New "file does not exist".
Definition os_ErrPermission : GoError := errors_New "permission denied".
Definition os_ErrExist : GoError := errors_New "file already exists".
Definition errors_ErrUnsupported : GoError := errors_New "unsupported operation".

(** The sentinels of package burrowdb. *)
Definition ErrInvalidValueType : GoError := errors_New "invalid value type".
Definition ErrNoIDField : GoError := errors_New "value has no ID field".
Definition ErrMultipleIDFields : GoError := errors_New "value has multiple ID fields".
Definition ErrNoSuchEntity : GoError := errors_New "no such entity exists".
Definition ErrNonPointerDst : GoError := errors_New "dst is not a pointer".

Definition errno_eqb (a b : errno) : bool :=
  Nat.eqb (errno_number a) (errno_number b).

(** [err == target] on error values: package-level values are the same when
    they are the same variable (told apart by their text), errnos when they
    are the same number; an error allocated by a failing call is never the
    target. *)
Definition same_error (err target : GoError) : bool :=
  match err, target with
  | errors_New a, errors_New b => String.eqb a b
  | Errno a, Errno b => errno_eqb a b
  | _, _ => false
  end.

(** The [Is] method of [syscall.Errno]. *)
Definition Errno_Is (e : errno) (target : GoError) : bool :=
  if same_error target os_ErrPermission then errno_eqb e EACCES || errno_eqb e EPERM
  else if same_error target os_ErrExist then errno_eqb e EEXIST || errno_eqb e ENOTEMPTY
  else if same_error target os_ErrNotExist then errno_eqb e ENOENT
  else if same_error target errors_ErrUnsupported then
    errno_eqb e ENOSYS || errno_eqb e EOPNOTSUPP
  else false.

(** [errors.Is]: walk the [Unwrap] chain. *)
Fixpoint errors_Is (err target : GoError) : bool :=
  same_error err target ||
  match err with
  | Errno e => Errno_Is e target
  | PathError _ _ inner => errors_Is inner target
  | wrapError _ inner => errors_Is inner target
  | _ => false
  end.

(** The [%q] verb on a string ([strconv.Quote]), for text in printable
    UTF-8 and ASCII control characters: the string between double quotes,
    with the quote, the backslash and the control characters escaped. *)
Definition hex_digit (n : nat) : ascii :=
  nth n (list_ascii_of_string "0123456789abcdef") "0"%char.

Definition escape (c : ascii) : string :=
  String.String (ascii_of_nat 92) (String.String c "").

Definition quote_byte (c : ascii) : string :=
  let n := nat_of_ascii c in
  if (n =? 34)%nat || (n =? 92)%nat then escape c
  else if (n =? 7)%nat then escape "a"
  else if (n =? 8)%nat then escape "b"
  else if (n =? 12)%nat then escape "f"
  else if (n =? 10)%nat then escape "n"
  else if (n =? 13)%nat then escape "r"
  else if (n =? 9)%nat then escape "t"
  else if (n =? 11)%nat then escape "v"
  else if (n <? 32)%nat || (n =? 127)%nat then
    escape "x" +:+ String.String (hex_digit (n / 16))
                     (String.String (hex_digit (n mod 16)) "")
  else String.String c "".

Fixpoint quote_bytes (s : string) : string :=
  match s with
  | EmptyString => String.String (ascii_of_nat 34) ""
  | String.String c rest => quote_byte c +:+ quote_bytes rest
  end.

Definition strconv_Quote (s : string) : string :=
  String.String (ascii_of_nat 34) (quote_bytes s).

(** ** Identifier resolution *)

Definition structTagName : string := "burrowdb".
Definition idFieldName : string := "ID".

(** The loop of [Put] over the visible fields.  [idField] is the field found
    so far; the result is [inl] the error of an early return, or [inr] the
    value of [idField] when the loop ends. *)
Fixpoint findIDField (fields : list StructField) (idField : option StructField)
    : GoError + option StructField :=
  match fields with
  | [] => inr idField
  | field :: rest =>
      if String.eqb (Name_of field) idFieldName then
        match idField with
        | Some _ => inl ErrMultipleIDFields
        | None => findIDField rest (Some field)
        end
      else if String.eqb (Get (Tag field) structTagName) idFieldName then
        match idField with
        | Some _ => inl ErrMultipleIDFields
        | None => findIDField rest (Some field)
        end
      else findIDField rest idField
  end.

(** A field is eligible when it is named "ID" or tagged [burrowdb:"ID"]. *)
Definition eligible (f : StructField) : bool :=
  String.eqb (Name_of f) idFieldName
  || String.eqb (Get (Tag f) structTagName) idFieldName.

(** ** Outcomes and the store *)

(** A call returns or panics. *)
Inductive Outcome (A : Type) :=
| Return (a : A)
| Panic (msg : string).
Arguments Return {A} a.
Arguments Panic {A} msg.

Section Store.

(** The type of byte sequences ([[]byte]). *)
Context {bytes : Type}.

Inductive Node :=
| File (data : bytes)
| Dir.

(** The calls the program makes outside itself, in order. *)
Inductive Event :=
| EvMarshal (v : any)
| EvUnmarshal (data : bytes)
| EvMkdirAll (path : string)
| EvWriteFile (path : string) (data : bytes)
| EvReadFile (path : string).

(** The world a call runs in: what is stored at each path, the paths on
    which every operation fails and with which errno, and the calls made
    so far (latest first). *)
Record World := mkWorld {
  nodes : gmap string Node;
  faults : gmap string errno;
  log : list Event;
}.

Definition M (A : Type) : Type := World → Outcome (A * World).

Definition ret {A} (a : A) : M A := λ w, Return (a, w).

Definition bind {A B} (m : M A) (k : A → M B) : M B :=
  λ w, match m w with
       | Return (a, w') => k a w'
       | Panic msg => Panic msg
       end.

Definition panic {A} (msg : string) : M A := λ _, Panic msg.

Definition emit (e : Event) : M unit :=
  λ w, Return (tt, mkWorld (nodes w) (faults w) (e :: log w)).

Definition get_world : M World := λ w, Return (w, w).

Definition set_nodes (n : gmap string Node) : M unit :=
  λ w, Return (tt, mkWorld n (faults w) (log w)).

End Store.

Arguments Node : clear implicits.
Arguments Event : clear implicits.
Arguments World : clear implicits.
Arguments M : clear implicits.

Notation "x <- m ;; k" := (bind m (λ x, k))
  (at level 100, m at next level, right associativity, only parsing).
Notation "m ;;; k" := (bind m (λ _, k))
  (at level 100, right associativity, only parsing).

(** ** Package os *)

(** The store is seen through the paths the program uses, as written: a path
    holds a regular file, a directory or nothing.  The directories on the way
    to a path are its prefixes that end before a separator; ".", ".." and
    repeated separators are not resolved, so two ways to write one path are
    two paths here.  A fault at a path makes every call on that path fail
    when it opens it; failures while a file is being written are not
    modelled. *)

Section Os.

Context {bytes : Type}.

Definition is_file (n : option (Node bytes)) : bool :=
  match n with
  | Some (File _) => true
  | _ => false
  end.

Fixpoint parents_from (pre s : string) : list string :=
  match s with
  | EmptyString => []
  | String.String c rest =>
      if Ascii.eqb c "/" then
        (if String.eqb pre "" then [] else [pre])
        ++ parents_from (pre +:+ "/") rest
      else parents_from (pre +:+ String.String c "") rest
  end.

(** The directories on the way to [path], from the outermost on. *)
Definition ancestors (path : string) : list string := parents_from "" path.

(** The first regular file on the way to [path], if there is one. *)
Definition blocked (n : gmap string (Node bytes)) (path : string) : option string :=
  List.find (λ q, is_file (n !! q)) (ancestors path).

(** The nodes once [path] is made a directory, unless it holds something. *)
Definition with_dir (path : string) (n : gmap string (Node bytes))
    : gmap string (Node bytes) :=
  match n !! path with
  | None => <[path := Dir]> n
  | Some _ => n
  end.

(** What [os.MkdirAll] returns and leaves: nothing to do for a directory;
    an error for a regular file, at the path or on the way to it; otherwise
    the missing directories on the way and the directory itself are
    created. *)
Definition mkdir_all (f : gmap string errno) (n : gmap string (Node bytes))
    (path : string) : option GoError * gmap string (Node bytes) :=
  match f !! path with
  | Some e => (Some (PathError "mkdir" path (Errno e)), n)
  | None =>
      match n !! path with
      | Some Dir => (None, n)
      | Some (File _) => (Some (PathError "mkdir" path (Errno ENOTDIR)), n)
      | None =>
          match blocked n path with
          | Some q => (Some (PathError "mkdir" q (Errno ENOTDIR)), n)
          | None => (None, <[path := Dir]> (foldr with_dir n (ancestors path)))
          end
      end
  end.

(** [os.MkdirAll]. *)
Definition os_MkdirAll (path : string) : M bytes (option GoError) :=
  emit (EvMkdirAll path) ;;;
  w <- get_world ;;
  set_nodes (snd (mkdir_all (faults w) (nodes w) path)) ;;;
  ret (fst (mkdir_all (faults w) (nodes w) path)).

(** The directory [name] is created in is there: [name] has no separator,
    or its innermost ancestor is a directory. *)
Definition parent_is_dir (n : gmap string (Node bytes)) (name : string) : bool :=
  match last (ancestors name) with
  | None => true
  | Some q =>
      match n !! q with
      | Some Dir => true
      | _ => false
      end
  end.

(** What [os.WriteFile] returns and leaves: a regular file is truncated and
    rewritten; a directory is an error; a file that is not there is created
    in its directory, which must be there. *)
Definition write_file (f : gmap string errno) (n : gmap string (Node bytes))
    (name : string) (data : bytes) : option GoError * gmap string (Node bytes) :=
  match f !! name with
  | Some e => (Some (PathError "open" name (Errno e)), n)
  | None =>
      match n !! name with
      | Some Dir => (Some (PathError "open" name (Errno EISDIR)), n)
      | Some (File _) => (None, <[name := File data]> n)
      | None =>
          match blocked n name with
          | Some _ => (Some (PathError "open" name (Errno ENOTDIR)), n)
          | None =>
              if parent_is_dir n name then (None, <[name := File data]> n)
              else (Some (PathError "open" name (Errno ENOENT)), n)
          end
      end
  end.

(** [os.WriteFile]. *)
Definition os_WriteFile (name : string) (data : bytes) : M bytes (option GoError) :=
  emit (EvWriteFile name data) ;;;
  w <- get_world ;;
  set_nodes (snd (write_file (faults w) (nodes w) name data)) ;;;
  ret (fst (write_file (faults w) (nodes w) name data)).

(** What reading [name] yields in the world [w]: where nothing is at
    [name], the errno tells whether a regular file is on the way. *)
Definition lookup_file (w : World bytes) (name : string) : bytes + GoError :=
  match faults w !! name with
  | Some e => inr (PathError "open" name (Errno e))
  | None =>
      match nodes w !! name with
      | Some (File data) => inl data
      | Some Dir => inr (PathError "read" name (Errno EISDIR))
      | None =>
          match blocked (nodes w) name with
          | Some _ => inr (PathError "open" name (Errno ENOTDIR))
          | None => inr (PathError "open" name (Errno ENOENT))
          end
      end
  end.

(** [os.ReadFile]. *)
Definition os_ReadFile (name : string) : M bytes (bytes + GoError) :=
  emit (EvReadFile name) ;;;
  w <- get_world ;;
  ret (lookup_file w name).

(** The path and the bytes of the latest call in the log, when it is a
    write. *)
Definition written (w : World bytes) : option (string * bytes) :=
  match log w with
  | EvWriteFile path data :: _ => Some (path, data)
  | _ => None
  end.

(** A plain file name: not empty, not "." or "..", and without a
    separator. *)
Fixpoint has_separator (s : string) : bool :=
  match s with
  | EmptyString => false
  | String.String c rest => Ascii.eqb c "/" || has_separator rest
  end.

Definition plain_name (s : string) : bool :=
  negb (String.eqb s "") && negb (String.eqb s ".") && negb (String.eqb s "..")
  && negb (has_separator s).

Fixpoint split_path (cur s : string) : list string :=
  match s with
  | EmptyString => [cur]
  | String.String c rest =>
      if Ascii.eqb c "/" then cur :: split_path "" rest
      else split_path (cur +:+ String.String c "") rest
  end.

(** A clean path: plain names between single separators, after a separator
    at most. *)
Definition clean_path (s : string) : bool :=
  match split_path "" s with
  | first :: second :: rest =>
      (String.eqb first "" || plain_name first) && forallb plain_name (second :: rest)
  | names => forallb plain_name names
  end.

(** Where a path leads once its empty names, "." and ".." are resolved, when
    every name on the way is a directory and none a symbolic link: the names
    from the outermost on.  Above the root ".." stays at the root; above the
    working directory it is kept. *)
Definition is_rooted (s : string) : bool :=
  match s with
  | String.String c _ => Ascii.eqb c "/"
  | EmptyString => false
  end.

Definition enter (rooted : bool) (stack : list string) (name : string) : list string :=
  if String.eqb name "" || String.eqb name "." then stack
  else if String.eqb name ".." then
    match stack with
    | top :: rest => if String.eqb top ".." then name :: stack else rest
    | [] => if rooted then [] else [name]
    end
  else name :: stack.

Definition resolve (s : string) : list string :=
  rev (fold_left (enter (is_rooted s)) (split_path "" s) []).

End Os.

(** ** The codec and the formatter *)

(** What the program takes from [fmt] and [encoding/json]. *)
Class Runtime (bytes : Type) := {
  (** [fmt.Sprintf("%v", v)] for an interface operand *)
  sprint_v : any → string;
  (** [json.Marshal]: the encoding, or the text of the error *)
  Marshal : any → bytes + string;
  (** [json.Unmarshal data dst]: the destination afterwards, and the text
      of the error if there is one *)
  Unmarshal : bytes → any → any * option string;
}.

Section BurrowDB.

Context {bytes : Type} `{!Runtime bytes}.

(** [%v] with a [reflect.Value] operand prints the value it holds. *)
Definition sprint_rv (v : reflect_Value) : string :=
  match v with
  | Some tv => sprint_v (Some tv)
  | None => "<invalid reflect.Value>"
  end.

Definition json_Marshal (v : any) : M bytes (bytes + GoError) :=
  emit (EvMarshal v) ;;;
  match Marshal v with
  | inl data => ret (inl data)
  | inr text => ret (inr (JsonError text))
  end.

Definition json_Unmarshal (data : bytes) (dst : any) : M bytes (any * option GoError) :=
  emit (EvUnmarshal data) ;;;
  let '(dst', err) := Unmarshal data dst in
  ret (dst', JsonError <$> err).

(** [Type.Kind] through the interface: a nil descriptor panics. *)
Definition Type_Kind (t : option rtype) : M bytes Kind :=
  match t with
  | Some t => ret (Kind_of t)
  | None => panic "invalid memory address or nil pointer dereference"
  end.

(** BurrowDB is a database built for golang in golang. *)
Record BurrowDB := mkDB {
  dir : string; (* directory where files will be stored. *)
}.

(** An option ([func(db *BurrowDB) error]), as what it makes of the store it
    is given and the error it returns.  Options that do more (a nil
    function, one that panics or touches the file system) are outside the
    embedding; the package itself makes options with [WithDir] only. *)
Definition newDBOption : Type := BurrowDB → BurrowDB * option GoError.

(** WithDir specifies the directory where entries will be stored. *)
Definition WithDir (dir : string) : newDBOption :=
  λ db, (mkDB dir, None).

Fixpoint apply_options (opts : list newDBOption) (db : BurrowDB)
    : BurrowDB + GoError :=
  match opts with
  | [] => inl db
  | opt :: rest =>
      match opt db with
      | (_, Some err) => inr (Errorf_v "error applying option: " err)
      | (db', None) => apply_options rest db'
      end
  end.

(** NewDB returns a new BurrowDB instance with the passed options. *)
Definition NewDB (opts : list newDBOption) : M bytes (BurrowDB + GoError) :=
  match apply_options opts (mkDB "") with
  | inr err => ret (inr err)
  | inl db =>
      let db := if String.eqb (dir db) "" then mkDB "burrow" else db in
      err <- os_MkdirAll (dir db) ;;
      match err with
      | Some err =>
          ret (inr (errorString ("unable to create directory ("
                                 +:+ strconv_Quote (dir db)
                                 +:+ "): " +:+ Error err)))
      | None => ret (inl db)
      end
  end.

(** The tail of [Put], from the marshalling on, once [idField] is known. *)
Definition storeEntity (db : BurrowDB) (_type : rtype) (v : any)
    (idField : StructField) : M bytes (option GoError) :=
  r <- json_Marshal v ;;
  match r with
  | inr err => ret (Some (Errorf_v "unable to marshal value: " err))
  | inl data =>
      let _v := ValueOf v in
      let typeDir := dir db +:+ "/" +:+ Name _type in
      err <- os_MkdirAll typeDir ;;
      match err with
      | Some err => ret (Some (Errorf_w "unable to create type dir: " err))
      | None =>
          let filename :=
            typeDir +:+ "/" +:+ sprint_rv (FieldByName _v (Name_of idField)) in
          err <- os_WriteFile filename data ;;
          match err with
          | Some err => ret (Some (Errorf_w "unable to write file: " err))
          | None => ret None
          end
      end
  end.

(** Put takes a value and puts it into the db. *)
Definition Put (db : BurrowDB) (v : any) : M bytes (option GoError) :=
  let _type := TypeOf v in
  k <- Type_Kind _type ;;
  match k, _type with
  | Struct, Some _type =>
      match VisibleFields _type with
      | None => panic "reflect.VisibleFields of non-struct type"
      | Some fields =>
          match findIDField fields None with
          | inl err => ret (Some err)
          | inr None => ret (Some ErrNoIDField)
          | inr (Some idField) => storeEntity db _type v idField
          end
      end
  | _, _ => ret (Some ErrInvalidValueType)
  end.

(** GetByID gets the entity with the type of the passed destination with
    the passed ID.  The result is the destination afterwards and the
    error. *)
Definition GetByID (db : BurrowDB) (dst id : any) : M bytes (any * option GoError) :=
  let _type := TypeOf dst in
  k <- Type_Kind _type ;;
  match k, _type ≫= Elem with
  | Pointer, Some elem =>
      let filename := dir db +:+ "/" +:+ Name elem +:+ "/" +:+ sprint_v id in
      r <- os_ReadFile filename ;;
      match r with
      | inr err =>
          if errors_Is err os_ErrNotExist then ret (dst, Some ErrNoSuchEntity)
          else ret (dst, Some (Errorf_w "unable to get entity: " err))
      | inl data =>
          r <- json_Unmarshal data dst ;;
          match r with
          | (dst', Some err) =>
              ret (dst', Some (Errorf_w "unable to unmarshal data: " err))
          | (dst', None) => ret (dst', None)
          end
      end
  | Pointer, None => panic "reflect: Elem of invalid type"
  | _, _ => ret (dst, Some ErrNonPointerDst)
  end.

(** ** The vocabulary of the properties *)

(** The storage path of an entity: [<root>/<type-name>/<token>]. *)
Definition entity_path (db : BurrowDB) (name token : string) : string :=
  dir db +:+ "/" +:+ name +:+ "/" +:+ token.

(** The identifier token of the record [x] of type [t]: the rendering of
    the field the loop of [Put] ends on, when it ends on one. *)
Definition token_of (t : rtype) (x : Value) : option string :=
  match VisibleFields t with
  | Some fields =>
      match findIDField fields None with
      | inr (Some idField) =>
          Some (sprint_rv (FieldByName (ValueOf (Some (t, x))) (Name_of idField)))
      | _ => None
      end
  | None => None
  end.

(** The codec gives [x] back: decoding the encoding of [x] into a fresh
    variable of its type fills it with [x]. *)
Definition codec_round_trips (t : rtype) (x : Value) : Prop :=
  ∀ data, Marshal (Some (t, x)) = inl data →
          Unmarshal data (new t) = (pointer_to t x, None).

(** A successful [Put] of [x] from [w], then [GetByID] into a fresh
    variable under [id], fills the variable with [x]. *)
Definition round_trips (db : BurrowDB) (t : rtype) (x : Value) (id : any)
    (w : World bytes) : Prop :=
  ∀ w', Put db (Some (t, x)) w = Return (None, w') →
        ∃ w'', GetByID db (new t) id w' = Return ((pointer_to t x, None), w'').

(** Successful [Put]s of [x1] and then [x2] from [w], then [GetByID] into
    a fresh variable under [id], fill the variable with [x2], and the file
    read holds the encoding of [x2] and nothing else. *)
Definition last_writer_wins (db : BurrowDB) (t : rtype) (x1 x2 : Value)
    (id : any) (w : World bytes) : Prop :=
  ∀ w1 w2,
    Put db (Some (t, x1)) w = Return (None, w1) →
    Put db (Some (t, x2)) w1 = Return (None, w2) →
    (∃ w3, GetByID db (new t) id w2 = Return ((pointer_to t x2, None), w3))
    ∧ ∃ data2, Marshal (Some (t, x2)) = inl data2
               ∧ nodes w2 !! entity_path db (Name t) (sprint_v id) = Some (File data2).

(** Successful [Put]s of [x1] and then [x2] from [w] write at distinct
    paths, each of the form [<root>/<type-name>/<token>], and the second
    leaves the file of the first as it was. *)
Definition kept_apart (db : BurrowDB) (t1 : rtype) (x1 : Value)
    (t2 : rtype) (x2 : Value) (token : string) (w : World bytes) : Prop :=
  ∀ w1 w2,
    Put db (Some (t1, x1)) w = Return (None, w1) →
    Put db (Some (t2, x2)) w1 = Return (None, w2) →
    ∃ data1 data2,
      written w1 = Some (entity_path db (Name t1) token, data1)
      ∧ written w2 = Some (entity_path db (Name t2) token, data2)
      ∧ entity_path db (Name t1) token ≠ entity_path db (Name t2) token
      ∧ nodes w2 !! entity_path db (Name t1) token = Some (File data1).

End BurrowDB.

(** ** A runtime to run the program on *)

(** [encoding/json] on documents rather than on their text: what is
    modelled is which fields of a record reach the document and come back
    from it.  Struct tags under the key [json] are not interpreted. *)

Module Json.

(** JSON documents. *)
Inductive doc :=
| Null
| JBool (b : bool)
| Num (z : Z)
| Str (s : string)
| Obj (members : list (string * doc)).

(** A byte sequence is told by the document it spells; [Malformed] stands
    for the sequences that spell none. *)
Inductive text :=
| Text (d : doc)
| Malformed (raw : string).

Definition decimal (z : Z) : string := NilZero.string_of_int (Z.to_int z).

Fixpoint join (sep : string) (l : list string) : string :=
  match l with
  | [] => ""
  | [x] => x
  | x :: rest => x +:+ sep +:+ join sep rest
  end.

(** [Type.String], without the tags of struct fields, for a package whose
    path is its name. *)
Fixpoint type_String (t : rtype) : string :=
  match t with
  | TBool => "bool" | TInt => "int" | TInt64 => "int64" | TString => "string"
  | TChan e => "chan " +:+ type_String e
  | TPtr e => "*" +:+ type_String e
  | TStruct fields =>
      "struct { "
      +:+ join "; " (map (λ f, let 'Field n _ ty := f in n +:+ " " +:+ type_String ty) fields)
      +:+ " }"
  | TNamed pkg name _ => pkg +:+ "." +:+ name
  end.

(** The [%v] verb.  The address of a variable is not part of a value, so a
    pointer that fmt would print as an address prints as a fixed one. *)
Fixpoint format_v (top : bool) (v : Value) : string :=
  match v with
  | VBool true => "true"
  | VBool false => "false"
  | VInt z => decimal z
  | VString s => s
  | VChan 0 => "<nil>"
  | VChan _ => "0xc000010000"
  | VPtr None => "<nil>"
  | VPtr (Some (VStruct _ as x)) =>
      if top then "&" +:+ format_v false x else "0xc000010000"
  | VPtr (Some _) => "0xc000010000"
  | VStruct vals => "{" +:+ join " " (map (format_v false) vals) +:+ "}"
  end.

Definition sprint (v : any) : string :=
  match v with
  | None => "<nil>"
  | Some (_, x) => format_v true x
  end.

Definition struct_fields (t : rtype) : list StructField :=
  default [] (VisibleFields t).

(** The encoder: a struct is the object of its exported fields, under
    their names; a channel has no encoding. *)
Fixpoint encode (t : rtype) (v : Value) {struct v} : doc + string :=
  match v with
  | VBool b => inl (JBool b)
  | VInt z => inl (Num z)
  | VString s => inl (Str s)
  | VChan _ => inr ("json: unsupported type: " +:+ type_String t)
  | VPtr None => inl Null
  | VPtr (Some x) => encode (default t (Elem t)) x
  | VStruct vals =>
      let members :=
        (fix members (fields : list StructField) (vals : list Value) {struct vals}
           : list (string * doc) + string :=
           match fields, vals with
           | f :: fields', x :: vals' =>
               if IsExported f then
                 match encode (Type_of f) x with
                 | inr e => inr e
                 | inl d =>
                     match members fields' vals' with
                     | inr e => inr e
                     | inl ms => inl ((Name_of f, d) :: ms)
                     end
                 end
               else members fields' vals'
           | _, _ => inl []
           end) in
      match members (struct_fields t) vals with
      | inr e => inr e
      | inl ms => inl (Obj ms)
      end
  end.

Definition marshal (v : any) : text + string :=
  match v with
  | None => inl (Text Null)
  | Some (t, x) =>
      match encode t x with
      | inl d => inl (Text d)
      | inr e => inr e
      end
  end.

Definition lower (c : ascii) : ascii :=
  let n := nat_of_ascii c in
  if (65 <=? n)%nat && (n <=? 90)%nat then ascii_of_nat (n + 32) else c.

Fixpoint to_lower (s : string) : string :=
  match s with
  | EmptyString => EmptyString
  | String.String c rest => String.String (lower c) (to_lower rest)
  end.

(** The index of the exported field a key decodes into: the field of that
    name, or else one whose name differs from the key in case only. *)
Fixpoint index_where (p : StructField → bool) (fields : list StructField)
    : option nat :=
  match fields with
  | [] => None
  | f :: rest => if p f then Some 0%nat else S <$> index_where p rest
  end.

Definition field_for (key : string) (fields : list StructField) : option nat :=
  match index_where (λ f, IsExported f && String.eqb (Name_of f) key) fields with
  | Some i => Some i
  | None =>
      index_where
        (λ f, IsExported f && String.eqb (to_lower (Name_of f)) (to_lower key))
        fields
  end.

Definition first_error (a b : option string) : option string :=
  match a with
  | Some _ => a
  | None => b
  end.

Definition mismatch (what : string) (t : rtype) : option string :=
  Some ("json: cannot unmarshal " +:+ what +:+ " into Go value of type "
        +:+ type_String t).

(** Where a document other than null is decoded into a destination of
    type [t]: pointers are followed, and allocated where they are nil.  The
    result is the type and value found there, and how the destination is
    rebuilt around a new value. *)
Fixpoint indirect (t : rtype) (cur : Value) : rtype * Value * (Value → Value) :=
  match t with
  | TPtr e =>
      let x := match cur with VPtr (Some x) => x | _ => zero e end in
      let '(t0, x0, wrap) := indirect e x in
      (t0, x0, λ y, VPtr (Some (wrap y)))
  | TNamed _ _ u =>
      match Kind_of u with
      | Pointer => indirect u cur
      | _ => (t, cur, λ y, y)
      end
  | _ => (t, cur, λ y, y)
  end.

(** The decoder.  null clears a pointer and leaves any other destination
    as it is; a value of the wrong kind leaves the destination as it is and
    is reported after the rest has been decoded. *)
Fixpoint decode (t : rtype) (cur : Value) (d : doc) {struct d}
    : Value * option string :=
  let '(t0, x0, wrap) := indirect t cur in
  match d with
  | Null =>
      match Kind_of t with
      | Pointer => (VPtr None, None)
      | _ => (cur, None)
      end
  | JBool b =>
      match Kind_of t0 with
      | Bool => (wrap (VBool b), None)
      | _ => (wrap x0, mismatch "bool" t0)
      end
  | Num z =>
      match Kind_of t0 with
      | Int | Int64 => (wrap (VInt z), None)
      | _ => (wrap x0, mismatch "number" t0)
      end
  | Str s =>
      match Kind_of t0 with
      | String => (wrap (VString s), None)
      | _ => (wrap x0, mismatch "string" t0)
      end
  | Obj members =>
      match Kind_of t0 with
      | Struct =>
          let fields := struct_fields t0 in
          let vals :=
            match x0 with
            | VStruct vals => vals
            | _ => map (λ f, zero (Type_of f)) fields
            end in
          let '(vals', err) :=
            (fix each (members : list (string * doc)) (vals : list Value)
               : list Value * option string :=
               match members with
               | [] => (vals, None)
               | (key, d') :: rest =>
                   match field_for key fields with
                   | None => each rest vals
                   | Some i =>
                       match fields !! i, vals !! i with
                       | Some f, Some x =>
                           let '(x', e) := decode (Type_of f) x d' in
                           let '(vals', e') := each rest (<[i := x']> vals) in
                           (vals', first_error e e')
                       | _, _ => each rest vals
                       end
                   end
               end) members vals in
          (wrap (VStruct vals'), err)
      | _ => (wrap x0, mismatch "object" t0)
      end
  end.

(** [json.Unmarshal]: the destination must be a pointer to a variable. *)
Definition unmarshal (data : text) (dst : any) : any * option string :=
  match dst with
  | None => (dst, Some "json: Unmarshal(nil)")
  | Some (t, VPtr (Some cur)) =>
      match data with
      | Malformed _ => (dst, Some "invalid character looking for beginning of value")
      | Text d =>
          let elem := default t (Elem t) in
          let '(cur', err) := decode elem cur d in
          (Some (t, VPtr (Some cur')), err)
      end
  | Some (t, VPtr None) => (dst, Some ("json: Unmarshal(nil " +:+ type_String t +:+ ")"))
  | Some (t, _) => (dst, Some ("json: Unmarshal(non-pointer " +:+ type_String t +:+ ")"))
  end.

#[global] Instance runtime : Runtime text := {|
  sprint_v := sprint;
  Marshal := marshal;
  Unmarshal := unmarshal;
|}.

End Json.


(** ** Records to run the program on *)

Module Examples.

Definition bytes : Type := Json.text.

(** The store of [cmd/main.go]: the value [NewDB(WithDir("store"))] returns,
    and a world in which nothing is stored yet and nothing fails. *)
Definition db : BurrowDB := mkDB "store".
Definition w0 : World bytes := mkWorld ∅ ∅ [].

(** [newType] of [cmd/main.go], with a bool in the place of the float. *)
Definition newType : rtype :=
  TNamed "main" "newType"
    (TStruct [Field "Str" [] TString;
              Field "Num" [("burrowdb", "ID")] TInt64;
              Field "Flag" [] TBool]).
Definition oldVar : Value := VStruct [VString "string"; VInt 123; VBool true].
Definition id123 : any := Some (TInt, VInt 123).

(** [type Empty struct { X int }]: no identifier. *)
Definition Empty : rtype := TNamed "main" "Empty" (TStruct [Field "X" [] TInt]).

(** [type Bad struct { A int `burrowdb:"ID"`; B int `burrowdb:"ID"` }]. *)
Definition Bad : rtype :=
  TNamed "main" "Bad"
    (TStruct [Field "A" [("burrowdb", "ID")] TInt;
              Field "B" [("burrowdb", "ID")] TInt]).

(** [type Note struct { ID int; body string }]: [body] is not exported. *)
Definition Note : rtype :=
  TNamed "main" "Note" (TStruct [Field "ID" [] TInt; Field "body" [] TString]).
Definition blank : Value := VStruct [VInt 1; VString ""].
Definition memo : Value := VStruct [VInt 1; VString "call back"].
Definition id1 : any := Some (TInt, VInt 1).

(** [type Pipe struct { ID int; C chan int }]: a channel has no encoding. *)
Definition Pipe : rtype :=
  TNamed "main" "Pipe" (TStruct [Field "ID" [] TInt; Field "C" [] (TChan TInt)]).
Definition pipe : Value := VStruct [VInt 7; VChan 0].

(** Two types named [Item], declared in two packages. *)
Definition shop_Item : rtype :=
  TNamed "shop" "Item" (TStruct [Field "ID" [] TInt; Field "Price" [] TInt]).
Definition depot_Item : rtype :=
  TNamed "depot" "Item" (TStruct [Field "ID" [] TInt; Field "Shelf" [] TString]).
Definition sold : Value := VStruct [VInt 1; VInt 250].
Definition shelved : Value := VStruct [VInt 1; VString "B4"].

(** A type named apart from [shop_Item]. *)
Definition shop_Order : rtype :=
  TNamed "shop" "Order" (TStruct [Field "ID" [] TInt; Field "Item" [] TInt]).
Definition order : Value := VStruct [VInt 1; VInt 1].

(** The identifier 1 given as a string. *)
Definition id1_text : any := Some (TString, VString "1").

(** A second order, under the identifier 2. *)
Definition order2 : Value := VStruct [VInt 2; VInt 5].

(** A world in which [store] is a regular file. *)
Definition w_blocked : World bytes :=
  mkWorld {[ "store" := File (Json.Malformed "not a directory") ]} ∅ [].


(** An option that fails. *)
Definition failing_option : newDBOption :=
  λ db, (db, Some (errors_New "bad option")).

(** A world in which a regular file lies where the directory of [newType]
    would be. *)
Definition w_misplaced : World bytes :=
  mkWorld (<[ "store/newType" := File (Json.Text (Json.Num 0)) ]> {[ "store" := Dir ]})
          ∅ [].

(** A world in which the entity file of [newType] 123 cannot be opened. *)
Definition w_denied : World bytes :=
  mkWorld ∅ {[ "store/newType/123" := EACCES ]} [].

End Examples.

(** * Verification *)

(** ** Identifier resolution *)

Lemma eligible_Name (f : StructField) :
  String.eqb (Name_of f) idFieldName = true → eligible f = true.
Proof. unfold eligible. intros ->. reflexivity. Qed.

Lemma eligible_false (f : StructField) :
  eligible f = false →
  String.eqb (Name_of f) idFieldName = false
  ∧ String.eqb (Get (Tag f) structTagName) idFieldName = false.
Proof. unfold eligible. intros H. apply orb_false_elim in H. exact H. Qed.

(** What the loop computes, for any field found before it starts. *)
Lemma findIDField_filter (fields : list StructField) (acc : option StructField) :
  findIDField fields acc =
  match acc, List.filter eligible fields with
  | None, [] => inr None
  | None, [f] => inr (Some f)
  | Some a, [] => inr (Some a)
  | _, _ => inl ErrMultipleIDFields
  end.
Proof.
  revert acc. induction fields as [|field rest IH]; intros acc.
  - destruct acc; reflexivity.
  - cbn [findIDField List.filter].
    destruct (eligible field) eqn:He.
    + assert (Hstep : (if String.eqb (Name_of field) idFieldName
                       then match acc with
                            | Some _ => inl ErrMultipleIDFields
                            | None => findIDField rest (Some field)
                            end
                       else if String.eqb (Get (Tag field) structTagName) idFieldName
                            then match acc with
                                 | Some _ => inl ErrMultipleIDFields
                                 | None => findIDField rest (Some field)
                                 end
                            else findIDField rest acc)
                      = match acc with
                        | Some _ => inl ErrMultipleIDFields
                        | None => findIDField rest (Some field)
                        end).
      { unfold eligible in He.
        destruct (String.eqb (Name_of field) idFieldName); [reflexivity|].
        cbn in He. rewrite He. reflexivity. }
      rewrite Hstep. destruct acc as [a|]; [reflexivity|].
      rewrite IH. destruct (List.filter eligible rest); reflexivity.
    + destruct (eligible_false _ He) as [-> ->]. apply IH.
Qed.

Lemma filter_eligible_Permutation (l l' : list StructField) :
  Permutation l l' → Permutation (List.filter eligible l) (List.filter eligible l').
Proof.
  induction 1 as [|x l l' _ IH|x y l|l l' l'' _ IH1 _ IH2]; cbn.
  - constructor.
  - destruct (eligible x); [constructor|]; exact IH.
  - destruct (eligible x), (eligible y); try reflexivity. constructor.
  - etransitivity; eassumption.
Qed.

(** The outcome of the loop does not depend on the order of the fields. *)
Lemma findIDField_Permutation (l l' : list StructField) :
  Permutation l l' → findIDField l' None = findIDField l None.
Proof.
  intros HP. rewrite !findIDField_filter.
  apply filter_eligible_Permutation in HP.
  destruct (List.filter eligible l) as [|a [|b m]] eqn:El.
  - apply Permutation_nil in HP. rewrite HP. reflexivity.
  - apply Permutation_length_1_inv in HP. rewrite HP. reflexivity.
  - pose proof (Permutation_length HP) as Hlen.
    destruct (List.filter eligible l') as [|a' [|b' m']]; cbn in Hlen; try lia.
    reflexivity.
Qed.

Lemma VisibleFields_Kind (t : rtype) (fields : list StructField) :
  VisibleFields t = Some fields → Kind_of t = Struct.
Proof.
  induction t; cbn; intros H; try discriminate; auto.
Qed.

Lemma Kind_VisibleFields (t : rtype) :
  Kind_of t = Struct → ∃ fields, VisibleFields t = Some fields.
Proof.
  induction t; cbn; intros H; try discriminate; eauto.
Qed.

(** ** Strings and paths *)

Lemma append_length (a b : string) :
  String.length (a +:+ b) = (String.length a + String.length b)%nat.
Proof.
  induction a as [|c a IH]; [reflexivity|].
  change (S (String.length (a +:+ b)) = S (String.length a + String.length b)).
  rewrite IH. reflexivity.
Qed.

Lemma append_cancel_r (a b s : string) : a +:+ s = b +:+ s → a = b.
Proof.
  revert b. induction a as [|c a IH]; intros [|c' b] H.
  - reflexivity.
  - apply (f_equal String.length) in H. rewrite !append_length in H.
    cbn in H. lia.
  - apply (f_equal String.length) in H. rewrite !append_length in H.
    cbn in H. lia.
  - change (String.String c (a +:+ s) = String.String c' (b +:+ s)) in H.
    injection H as -> H. f_equal. apply IH, H.
Qed.

Lemma append_cancel_l (s a b : string) : s +:+ a = s +:+ b → a = b.
Proof. apply String.app_inj. Qed.

Lemma append_assoc (a b c : string) : (a +:+ b) +:+ c = a +:+ (b +:+ c).
Proof.
  induction a as [|ch a IH]; [reflexivity|].
  change (String.String ch ((a +:+ b) +:+ c) = String.String ch (a +:+ (b +:+ c))).
  rewrite IH. reflexivity.
Qed.

Lemma append_nil_r (s : string) : s +:+ "" = s.
Proof.
  induction s as [|c s IH]; [reflexivity|].
  change (String.String c (s +:+ "") = String.String c s). rewrite IH. reflexivity.
Qed.

(** ** Paths *)

Lemma split_path_app (cur a b : string) :
  split_path cur (a +:+ String.String "/" b)
  = (split_path cur a ++ split_path "" b)%list.
Proof.
  revert cur. induction a as [|c a IH]; intros cur; [reflexivity|].
  change (split_path cur (String.String c (a +:+ String.String "/" b))
          = (split_path cur (String.String c a) ++ split_path "" b)%list).
  cbn [split_path]. destruct (Ascii.eqb c "/").
  - rewrite IH. reflexivity.
  - apply IH.
Qed.

Lemma split_path_plain (cur s : string) :
  has_separator s = false → split_path cur s = [cur +:+ s].
Proof.
  revert cur. induction s as [|c s IH]; intros cur H; cbn [split_path].
  - rewrite append_nil_r. reflexivity.
  - cbn [has_separator] in H. apply orb_false_iff in H as [Hc Hs].
    rewrite Hc, (IH _ Hs), append_assoc. reflexivity.
Qed.

Lemma enter_plain (rooted : bool) (stack : list string) (name : string) :
  plain_name name = true → enter rooted stack name = name :: stack.
Proof.
  unfold plain_name, enter. intros H.
  apply andb_true_iff in H as [H _]. apply andb_true_iff in H as [H H2].
  apply andb_true_iff in H as [H0 H1].
  apply negb_true_iff in H0, H1, H2. rewrite H0, H1, H2. reflexivity.
Qed.

Lemma plain_name_no_separator (s : string) :
  plain_name s = true → has_separator s = false.
Proof.
  unfold plain_name. intros H. apply andb_true_iff in H as [_ H].
  apply negb_true_iff in H. exact H.
Qed.

Lemma is_rooted_app (d a b : string) :
  is_rooted (d +:+ "/" +:+ a) = is_rooted (d +:+ "/" +:+ b).
Proof. destruct d; reflexivity. Qed.

(** A path that ends in two plain names leads through them, last. *)
Lemma resolve_plain (d name token : string) :
  plain_name name = true → plain_name token = true →
  ∃ stack, resolve (d +:+ "/" +:+ name +:+ "/" +:+ token)
           = (rev stack ++ [name; token])%list
    ∧ ∀ name', plain_name name' = true →
               resolve (d +:+ "/" +:+ name' +:+ "/" +:+ token)
               = (rev stack ++ [name'; token])%list.
Proof.
  intros Hn Ht.
  exists (fold_left (enter (is_rooted (d +:+ "/" +:+ name +:+ "/" +:+ token)))
                    (split_path "" d) []).
  assert (H : ∀ r nm, plain_name nm = true →
            rev (fold_left (enter r) (split_path "" (d +:+ "/" +:+ nm +:+ "/" +:+ token)) [])
            = (rev (fold_left (enter r) (split_path "" d) []) ++ [nm; token])%list).
  { intros r nm Hnm.
    change (d +:+ "/" +:+ nm +:+ "/" +:+ token)
      with (d +:+ String.String "/" (nm +:+ String.String "/" token)).
    rewrite !split_path_app, !fold_left_app.
    rewrite (split_path_plain "" nm (plain_name_no_separator _ Hnm)).
    rewrite (split_path_plain "" token (plain_name_no_separator _ Ht)).
    cbn [fold_left]. change ("" +:+ nm) with nm. change ("" +:+ token) with token.
    rewrite !enter_plain by assumption.
    cbn [rev]. rewrite <- app_assoc. reflexivity. }
  split.
  - unfold resolve. apply H, Hn.
  - intros name' Hn'. unfold resolve.
    rewrite (is_rooted_app d (name' +:+ "/" +:+ token) (name +:+ "/" +:+ token)).
    apply H, Hn'.
Qed.

(** ** The store *)

Section OsFacts.

Context {bytes : Type}.

Implicit Types (n : gmap string (Node bytes)) (f : gmap string errno).

(** A directory on the way to a path is a prefix of it that a separator
    follows. *)
Lemma parents_from_prefix (pre s q : string) :
  In q (parents_from pre s) → ∃ a r, s = a +:+ "/" +:+ r ∧ q = pre +:+ a.
Proof.
  revert pre. induction s as [|c s IH]; intros pre H; [contradiction|].
  cbn [parents_from] in H. destruct (Ascii.eqb_spec c "/") as [->|Hc].
  - apply in_app_or in H as [H|H].
    + destruct (String.eqb pre ""); [contradiction|].
      destruct H as [<-|[]]. exists "", s. split; [reflexivity|].
      symmetry. apply append_nil_r.
    + destruct (IH _ H) as (a & r & -> & ->).
      exists (String.String "/" a), r. split; [reflexivity|].
      rewrite append_assoc. reflexivity.
  - destruct (IH _ H) as (a & r & -> & ->).
    exists (String.String c a), r. split; [reflexivity|].
    rewrite append_assoc. reflexivity.
Qed.

Lemma ancestors_prefix (path q : string) :
  In q (ancestors path) → ∃ r, path = q +:+ "/" +:+ r.
Proof.
  intros H. destruct (parents_from_prefix _ _ _ H) as (a & r & -> & ->).
  exists r. reflexivity.
Qed.

Lemma ancestors_shorter (path q : string) :
  In q (ancestors path) → (String.length q < String.length path)%nat.
Proof.
  intros H. destruct (ancestors_prefix _ _ H) as [r ->].
  rewrite !append_length. cbn [String.length]. lia.
Qed.

Lemma blocked_Some n path q :
  blocked n path = Some q → In q (ancestors path) ∧ is_file (n !! q) = true.
Proof. unfold blocked. intros H. apply find_some in H. exact H. Qed.

Lemma blocked_None n path q :
  blocked n path = None → In q (ancestors path) → is_file (n !! q) = false.
Proof. unfold blocked. intros H Hq. exact (find_none _ _ H q Hq). Qed.

(** Two stores with the same regular files have the same regular files on
    the way to any path. *)
Lemma blocked_ext n n' path :
  (∀ q, In q (ancestors path) → is_file (n' !! q) = is_file (n !! q)) →
  blocked n' path = None ↔ blocked n path = None.
Proof.
  unfold blocked. intros H. induction (ancestors path) as [|a l IH]; [tauto|].
  cbn [List.find]. rewrite (H a) by (left; reflexivity).
  destruct (is_file (n !! a)); [split; discriminate|].
  apply IH. intros q Hq. apply H. right. exact Hq.
Qed.

Lemma with_dir_lookup (path q : string) n :
  with_dir path n !! q
  = if decide (q = path) then Some (default Dir (n !! path)) else n !! q.
Proof.
  unfold with_dir. destruct (decide (q = path)) as [->|Hne].
  - destruct (n !! path) eqn:E; [rewrite E; reflexivity|]. apply lookup_insert_eq.
  - destruct (n !! path); [reflexivity|]. apply lookup_insert_ne. auto.
Qed.

(** What creating the directories of a list changes: a path of the list
    that held nothing holds a directory; nothing else. *)
Lemma with_dirs_lookup (l : list string) n (q : string) :
  foldr with_dir n l !! q
  = match n !! q with
    | Some node => Some node
    | None => if decide (q ∈ l) then Some Dir else None
    end.
Proof.
  induction l as [|a l IH]; cbn [foldr].
  - destruct (n !! q); [reflexivity|].
    rewrite decide_False by apply not_elem_of_nil. reflexivity.
  - rewrite with_dir_lookup. destruct (decide (q = a)) as [->|Hne].
    + rewrite IH. destruct (n !! a); [reflexivity|].
      rewrite (decide_True (P := a ∈ a :: l)) by (left).
      destruct (decide (a ∈ l)); reflexivity.
    + rewrite IH. destruct (n !! q); [reflexivity|].
      destruct (decide (q ∈ l)) as [Hi|Hi].
      * rewrite decide_True by (right; exact Hi). reflexivity.
      * rewrite decide_False; [reflexivity|].
        intros Hj. apply elem_of_cons in Hj as [Hj|Hj]; contradiction.
Qed.

(** [os.MkdirAll] that fails leaves the store as it was, with a path
    error. *)
Lemma mkdir_all_err f n path err n' :
  mkdir_all f n path = (Some err, n') →
  n' = n ∧ ∃ q e, err = PathError "mkdir" q (Errno e).
Proof.
  unfold mkdir_all. destruct (f !! path); [intros [= <- <-]; eauto|].
  destruct (n !! path) as [[old|]|]; [intros [= <- <-]; eauto|discriminate|].
  destruct (blocked n path); [intros [= <- <-]; eauto|discriminate].
Qed.

(** [os.MkdirAll] that succeeds: the path is a directory, what was there is
    there, and only the path and the directories on the way to it can have
    changed, from nothing to a directory. *)
Lemma mkdir_all_ok f n path n' :
  mkdir_all f n path = (None, n') →
  f !! path = None
  ∧ n' !! path = Some Dir
  ∧ (∀ q node, n !! q = Some node → n' !! q = Some node)
  ∧ (∀ q, n' !! q = n !! q ∨ (n !! q = None ∧ n' !! q = Some Dir))
  ∧ (∀ q, q ≠ path → ¬ In q (ancestors path) → n' !! q = n !! q).
Proof.
  unfold mkdir_all. destruct (f !! path); [discriminate|].
  destruct (n !! path) as [[old|]|] eqn:En; [discriminate| |].
  - intros [= <-]. repeat split; auto.
  - destruct (blocked n path); [discriminate|]. intros [= <-].
    split; [reflexivity|]. split; [apply lookup_insert_eq|].
    split; [|split].
    + intros q node Hq. rewrite lookup_insert_ne by congruence.
      rewrite with_dirs_lookup, Hq. reflexivity.
    + intros q. destruct (decide (q = path)) as [->|Hne].
      { right. split; [exact En|apply lookup_insert_eq]. }
      rewrite lookup_insert_ne by auto. rewrite with_dirs_lookup.
      destruct (n !! q); [left; reflexivity|].
      destruct (decide (q ∈ ancestors path)); [right|left]; auto.
    + intros q Hne Hq. rewrite lookup_insert_ne by auto.
      rewrite with_dirs_lookup. destruct (n !! q); [reflexivity|].
      rewrite decide_False; [reflexivity|].
      intros Hi. apply Hq. apply list_elem_of_In. exact Hi.
Qed.

Lemma mkdir_all_is_file f n path n' q :
  mkdir_all f n path = (None, n') → is_file (n' !! q) = is_file (n !! q).
Proof.
  intros H. destruct (mkdir_all_ok _ _ _ _ H) as (_ & _ & _ & Hch & _).
  destruct (Hch q) as [->|[-> ->]]; reflexivity.
Qed.

(** [os.MkdirAll] on a directory that is there does nothing. *)
Lemma mkdir_all_present f n path :
  f !! path = None → n !! path = Some Dir → mkdir_all f n path = (None, n).
Proof. intros Hf Hn. unfold mkdir_all. rewrite Hf, Hn. reflexivity. Qed.

(** [os.WriteFile] that fails leaves the store as it was, with a path
    error on its name. *)
Lemma write_file_err f n name data err n' :
  write_file f n name data = (Some err, n') →
  n' = n ∧ ∃ e, err = PathError "open" name (Errno e).
Proof.
  unfold write_file. destruct (f !! name); [intros [= <- <-]; eauto|].
  destruct (n !! name) as [[old|]|]; [discriminate|intros [= <- <-]; eauto|].
  destruct (blocked n name); [intros [= <- <-]; eauto|].
  destruct (parent_is_dir n name); [discriminate|intros [= <- <-]; eauto].
Qed.

(** [os.WriteFile] that succeeds: the name holds the bytes, and nothing else
    has changed. *)
Lemma write_file_ok f n name data n' :
  write_file f n name data = (None, n') →
  f !! name = None ∧ n !! name ≠ Some Dir ∧ n' = <[name := File data]> n.
Proof.
  unfold write_file. destruct (f !! name); [discriminate|].
  destruct (n !! name) as [[old|]|]; [intros [= <-]; auto|discriminate|].
  destruct (blocked n name); [discriminate|].
  destruct (parent_is_dir n name); [intros [= <-]; auto|discriminate].
Qed.

(** [os.WriteFile] on a regular file that is there rewrites it. *)
Lemma write_file_present f n name data old :
  f !! name = None → n !! name = Some (File old) →
  write_file f n name data = (None, <[name := File data]> n).
Proof. intros Hf Hn. unfold write_file. rewrite Hf, Hn. reflexivity. Qed.

Lemma lookup_file_err (w : World bytes) name err :
  lookup_file w name = inr err → ∃ op e, err = PathError op name (Errno e).
Proof.
  unfold lookup_file.
  destruct (faults w !! name); [intros [= <-]; eauto|].
  destruct (nodes w !! name) as [[data|]|]; [discriminate|intros [= <-]; eauto|].
  destruct (blocked (nodes w) name); intros [= <-]; eauto.
Qed.

Lemma os_MkdirAll_run (path : string) (w : World bytes) :
  os_MkdirAll path w
  = Return (fst (mkdir_all (faults w) (nodes w) path),
            mkWorld (snd (mkdir_all (faults w) (nodes w) path)) (faults w)
                    (EvMkdirAll path :: log w)).
Proof. reflexivity. Qed.

Lemma os_WriteFile_run (name : string) (data : bytes) (w : World bytes) :
  os_WriteFile name data w
  = Return (fst (write_file (faults w) (nodes w) name data),
            mkWorld (snd (write_file (faults w) (nodes w) name data)) (faults w)
                    (EvWriteFile name data :: log w)).
Proof. reflexivity. Qed.

End OsFacts.

(** ** Errors *)

Lemma same_error_PathError op path inner target :
  same_error (PathError op path inner) target = false.
Proof. reflexivity. Qed.

(** An error of the store is no sentinel of this package, however it is
    wrapped. *)
Lemma errors_Is_wrapped_PathError prefix op path e text :
  negb (String.eqb text "file does not exist")
  && negb (String.eqb text "permission denied")
  && negb (String.eqb text "file already exists")
  && negb (String.eqb text "unsupported operation") = true →
  errors_Is (Errorf_w prefix (PathError op path (Errno e))) (errors_New text) = false.
Proof.
  intros H. unfold Errorf_w. cbn. unfold Errno_Is, os_ErrNotExist, os_ErrPermission,
    os_ErrExist, errors_ErrUnsupported. cbn.
  destruct (String.eqb text "file does not exist"); [discriminate|].
  destruct (String.eqb text "permission denied"); [discriminate|].
  destruct (String.eqb text "file already exists"); [discriminate|].
  destruct (String.eqb text "unsupported operation"); [discriminate|].
  reflexivity.
Qed.

Lemma errors_Is_wrapped_JsonError prefix text target :
  errors_Is (Errorf_w prefix (JsonError text)) target = false.
Proof. reflexivity. Qed.

Section Properties.

Context {bytes : Type} `{!Runtime bytes}.

Implicit Types (db : BurrowDB) (w : World bytes) (t : rtype) (x : Value).

Ltac run := unfold bind, emit, get_world, set_nodes, ret, panic; cbn.

(** [Put] on a struct is its resolution loop followed by [storeEntity]. *)
Lemma Put_struct db t x w fields :
  VisibleFields t = Some fields →
  Put db (Some (t, x)) w =
  match findIDField fields None with
  | inl err => Return (Some err, w)
  | inr None => Return (Some ErrNoIDField, w)
  | inr (Some idField) => storeEntity db t (Some (t, x)) idField w
  end.
Proof.
  intros HV. pose proof (VisibleFields_Kind _ _ HV) as HK.
  unfold Put, bind, Type_Kind, ret. cbn. rewrite HK, HV.
  destruct (findIDField fields None) as [err|[f|]]; reflexivity.
Qed.

Lemma Put_non_struct db t x w :
  Kind_of t ≠ Struct →
  Put db (Some (t, x)) w = Return (Some ErrInvalidValueType, w).
Proof.
  intros HK. unfold Put, bind, Type_Kind, ret. cbn.
  destruct (Kind_of t); try reflexivity. contradiction.
Qed.

(** The file name [Put] builds from the type directory is the path of the
    entity. *)
Lemma typeDir_file db (name token : string) :
  (dir db +:+ "/" +:+ name) +:+ "/" +:+ token = entity_path db name token.
Proof. unfold entity_path. rewrite !append_assoc. reflexivity. Qed.

(** [storeEntity], run: the encoder, the type directory, the file. *)
Lemma storeEntity_run db t v f w :
  let dirp := dir db +:+ "/" +:+ Name t in
  let file := dirp +:+ "/" +:+ sprint_rv (FieldByName (ValueOf v) (Name_of f)) in
  let w1 := mkWorld (nodes w) (faults w) (EvMarshal v :: log w) in
  storeEntity db t v f w =
  Return
    match Marshal v with
    | inr text => (Some (Errorf_v "unable to marshal value: " (JsonError text)), w1)
    | inl data =>
        let made := mkdir_all (faults w) (nodes w) dirp in
        let w2 := mkWorld (snd made) (faults w) (EvMkdirAll dirp :: log w1) in
        match fst made with
        | Some err => (Some (Errorf_w "unable to create type dir: " err), w2)
        | None =>
            let wrote := write_file (faults w) (snd made) file data in
            (match fst wrote with
             | Some err => Some (Errorf_w "unable to write file: " err)
             | None => None
             end,
             mkWorld (snd wrote) (faults w) (EvWriteFile file data :: log w2))
        end
    end.
Proof.
  intros dirp file w1.
  unfold storeEntity, json_Marshal. fold dirp. fold file.
  destruct (Marshal v) as [data|text]; [|reflexivity].
  unfold bind at 1. unfold bind at 1. unfold emit, ret at 1.
  unfold bind at 1. rewrite os_MkdirAll_run. cbn [faults nodes log].
  destruct (fst (mkdir_all (faults w) (nodes w) dirp)) as [err|]; [reflexivity|].
  unfold bind at 1. rewrite os_WriteFile_run. cbn [faults nodes log].
  destruct (fst (write_file _ _ file data)); reflexivity.
Qed.

(** [Put] on a record with a token, run. *)
Lemma Put_run db t x w token :
  token_of t x = Some token →
  let v : any := Some (t, x) in
  let dirp := dir db +:+ "/" +:+ Name t in
  let file := entity_path db (Name t) token in
  let w1 := mkWorld (nodes w) (faults w) (EvMarshal v :: log w) in
  Put db v w =
  Return
    match Marshal v with
    | inr text => (Some (Errorf_v "unable to marshal value: " (JsonError text)), w1)
    | inl data =>
        let made := mkdir_all (faults w) (nodes w) dirp in
        let w2 := mkWorld (snd made) (faults w) (EvMkdirAll dirp :: log w1) in
        match fst made with
        | Some err => (Some (Errorf_w "unable to create type dir: " err), w2)
        | None =>
            let wrote := write_file (faults w) (snd made) file data in
            (match fst wrote with
             | Some err => Some (Errorf_w "unable to write file: " err)
             | None => None
             end,
             mkWorld (snd wrote) (faults w) (EvWriteFile file data :: log w2))
        end
    end.
Proof.
  intros HT v dirp file w1. unfold token_of in HT.
  destruct (VisibleFields t) as [fields|] eqn:HV; [|discriminate].
  unfold v, file. rewrite (Put_struct _ _ _ _ _ HV).
  destruct (findIDField fields None) as [err|[f|]]; try discriminate.
  assert (HT' : sprint_rv (FieldByName (ValueOf (Some (t, x))) (Name_of f)) = token)
    by congruence.
  rewrite storeEntity_run. cbv zeta. rewrite (typeDir_file db), HT'. reflexivity.
Qed.

(** [Put] on a record without a token: one of the three sentinels, and the
    world as it was. *)
Lemma Put_no_token db t x w :
  token_of t x = None →
  ∃ e, Put db (Some (t, x)) w = Return (Some e, w)
       ∧ (e = ErrInvalidValueType ∨ e = ErrNoIDField ∨ e = ErrMultipleIDFields).
Proof.
  unfold token_of. intros HT.
  destruct (VisibleFields t) as [fields|] eqn:HV.
  - rewrite (Put_struct _ _ _ _ _ HV).
    destruct (findIDField fields None) as [err|[f|]] eqn:HF; [| discriminate |].
    + rewrite findIDField_filter in HF.
      destruct (List.filter eligible fields) as [|? [|? ?]]; try discriminate;
        injection HF as <-; eauto.
    + eauto.
  - exists ErrInvalidValueType. split; [|auto].
    apply Put_non_struct. intros HK.
    destruct (Kind_VisibleFields _ HK) as [fields HV']. congruence.
Qed.

(** A successful [Put]: the record has one identifier field, the codec
    encoded it, the type directory was made, and the encoding was written
    at the path of the entity. *)
Lemma Put_ok db t x w w' :
  Put db (Some (t, x)) w = Return (None, w') →
  ∃ token data n1,
    token_of t x = Some token
    ∧ Marshal (Some (t, x)) = inl data
    ∧ mkdir_all (faults w) (nodes w) (dir db +:+ "/" +:+ Name t) = (None, n1)
    ∧ faults w !! entity_path db (Name t) token = None
    ∧ w' = mkWorld (<[entity_path db (Name t) token := File data]> n1)
                   (faults w)
                   (EvWriteFile (entity_path db (Name t) token) data
                      :: EvMkdirAll (dir db +:+ "/" +:+ Name t)
                      :: EvMarshal (Some (t, x)) :: log w).
Proof.
  intros HP. destruct (token_of t x) as [token|] eqn:HT.
  2:{ destruct (Put_no_token db t x w HT) as (e & He & _). congruence. }
  rewrite (Put_run db t x w token HT) in HP. cbv zeta in HP.
  destruct (Marshal (Some (t, x))) as [data|text]; [|discriminate].
  destruct (mkdir_all (faults w) (nodes w) (dir db +:+ "/" +:+ Name t))
    as [[err|] n1] eqn:EM; cbn [fst snd] in HP; [discriminate|].
  destruct (write_file (faults w) n1 (entity_path db (Name t) token) data)
    as [[err|] n2] eqn:EW; cbn [fst snd] in HP; [discriminate|].
  destruct (write_file_ok _ _ _ _ _ EW) as (Hf & _ & ->).
  injection HP as <-. exists token, data, n1. auto.
Qed.

(** [GetByID] with a pointer as destination, run. *)
Lemma GetByID_run db (dst id : any) w t elem :
  TypeOf dst = Some t → Kind_of t = Pointer → Elem t = Some elem →
  let file := entity_path db (Name elem) (sprint_v id) in
  let w1 := mkWorld (nodes w) (faults w) (EvReadFile file :: log w) in
  GetByID db dst id w =
  match lookup_file w file with
  | inr err =>
      Return ((dst, Some (if errors_Is err os_ErrNotExist then ErrNoSuchEntity
                          else Errorf_w "unable to get entity: " err)), w1)
  | inl data =>
      let w2 := mkWorld (nodes w) (faults w) (EvUnmarshal data :: log w1) in
      match Unmarshal data dst with
      | (dst', Some text) =>
          Return ((dst', Some (Errorf_w "unable to unmarshal data: " (JsonError text))), w2)
      | (dst', None) => Return ((dst', None), w2)
      end
  end.
Proof.
  intros HT HK HE file w1.
  unfold GetByID, Type_Kind, os_ReadFile, json_Unmarshal. rewrite HT. cbn.
  rewrite HE. run. rewrite HK. fold (entity_path db (Name elem) (sprint_v id)).
  fold file. unfold lookup_file. cbn.
  destruct (faults w !! file) as [e|].
  { destruct (errors_Is _ _); reflexivity. }
  destruct (nodes w !! file) as [[data|]|]; cbn; try reflexivity.
  - destruct (Unmarshal data dst) as [dst' [text|]]; reflexivity.
  - destruct (blocked (nodes w) file); reflexivity.
Qed.

Lemma Kind_Pointer_Elem t : Kind_of t = Pointer → ∃ elem, Elem t = Some elem.
Proof. induction t; cbn; intros H; try discriminate; eauto. Qed.

Lemma GetByID_non_pointer db t x (id : any) w :
  Kind_of t ≠ Pointer →
  GetByID db (Some (t, x)) id w = Return ((Some (t, x), Some ErrNonPointerDst), w).
Proof.
  intros HK. unfold GetByID, Type_Kind. run.
  destruct (Kind_of t); try reflexivity. contradiction.
Qed.

(** When the codec rejects the record, [Put] returns an error that carries
    the text of the cause and no cause to unwrap. *)
Lemma Put_marshal_error db t x w token text :
  token_of t x = Some token →
  Marshal (Some (t, x)) = inr text →
  Put db (Some (t, x)) w =
  Return (Some (errorString ("unable to marshal value: " +:+ text)),
          mkWorld (nodes w) (faults w) (EvMarshal (Some (t, x)) :: log w)).
Proof.
  unfold token_of. intros HT HM.
  destruct (VisibleFields t) as [fields|] eqn:HV; [|discriminate].
  rewrite (Put_struct _ _ _ _ _ HV).
  destruct (findIDField fields None) as [err|[f|]]; try discriminate.
  rewrite storeEntity_run. cbv zeta. rewrite HM. reflexivity.
Qed.

(** ** The claims *)

(** C2. Identifier resolution is a trichotomy on the number of visible
    fields that are named "ID" or tagged [burrowdb:"ID"]: with none, [Put]
    returns [ErrNoIDField]; with exactly one, the loop ends on that field
    and [Put] goes on to store the entity under it; with two or more, [Put]
    returns [ErrMultipleIDFields].  The outcome of the loop is the same for
    every order of the fields. *)
Theorem identifier_resolution_trichotomy db t x w fields :
  VisibleFields t = Some fields →
  match List.filter eligible fields with
  | [] => Put db (Some (t, x)) w = Return (Some ErrNoIDField, w)
  | [f] =>
      findIDField fields None = inr (Some f)
      ∧ Put db (Some (t, x)) w = storeEntity db t (Some (t, x)) f w
  | _ :: _ :: _ => Put db (Some (t, x)) w = Return (Some ErrMultipleIDFields, w)
  end
  ∧ ∀ fields', Permutation fields fields' →
      findIDField fields' None = findIDField fields None.
Proof.
  intros HV. split; [|intros fields'; apply findIDField_Permutation].
  rewrite (Put_struct _ _ _ _ _ HV), findIDField_filter.
  destruct (List.filter eligible fields) as [|a [|b m]]; auto.
Qed.

(** C7. For a value that is not the nil interface and whose kind is not
    struct, [Put] returns [ErrInvalidValueType] and leaves the world as it
    found it: nothing is stored and no call to the codec or to the store is
    logged. *)
Theorem Put_rejects_non_struct db t x w :
  Kind_of t ≠ Struct →
  Put db (Some (t, x)) w = Return (Some ErrInvalidValueType, w).
Proof.
  intros HK. unfold Put, TypeOf. cbn [fmap option_fmap option_map fst].
  unfold bind, Type_Kind, ret.
  destruct (Kind_of t) eqn:E; try reflexivity.
  exfalso. apply HK. reflexivity.
Qed.

(** C9. With the untyped nil interface as the value, [Put] panics, and with
    it as the destination, [GetByID] panics: neither returns an error. *)
Theorem nil_interface_panics db (id : any) w :
  Put db None w = Panic "invalid memory address or nil pointer dereference"
  ∧ GetByID db None id w = Panic "invalid memory address or nil pointer dereference".
Proof. split; reflexivity. Qed.

(** C10. When [Put] returns [ErrInvalidValueType], [ErrNoIDField],
    [ErrMultipleIDFields] or the error of a failed encoding, the store is
    as it was: no node is created or rewritten, and the only call that can
    have been made is the one to the encoder. *)
Theorem Put_failure_leaves_store db (v : any) w w' err :
  Put db v w = Return (Some err, w') →
  err = ErrInvalidValueType ∨ err = ErrNoIDField ∨ err = ErrMultipleIDFields
  ∨ (∃ cause, err = Errorf_v "unable to marshal value: " cause) →
  nodes w' = nodes w ∧ faults w' = faults w
  ∧ (log w' = log w ∨ log w' = EvMarshal v :: log w).
Proof.
  intros HP Herr.
  assert (Hshape : ∀ msg cause, err ≠ wrapError msg cause).
  { intros msg cause ->.
    destruct Herr as [H|[H|[H|[c H]]]]; discriminate. }
  destruct v as [[t x]|]; [|discriminate].
  destruct (Kind_of t) eqn:HK;
    try (rewrite Put_non_struct in HP by (rewrite HK; discriminate);
         injection HP as _ <-; auto).
  destruct (Kind_VisibleFields _ HK) as [fields HV].
  rewrite (Put_struct _ _ _ _ _ HV) in HP.
  destruct (findIDField fields None) as [e|[f|]];
    try (injection HP as _ <-; auto; fail).
  rewrite storeEntity_run in HP. cbv zeta in HP.
  destruct (Marshal (Some (t, x))); [|injection HP as _ <-; cbn; auto].
  exfalso.
  destruct (fst (mkdir_all _ _ _)) as [e1|];
    [injection HP as HP _; eapply Hshape; symmetry; exact HP|].
  destruct (fst (write_file _ _ _ _)) as [e2|];
    [injection HP as HP _; eapply Hshape; symmetry; exact HP|discriminate].
Qed.

(** C5, amended. [GetByID] with a pointer as destination.  When nothing is
    at the path of the entity and no regular file is on the way to it, and
    more generally when the read fails with an error that is
    [os.ErrNotExist], the result is [ErrNoSuchEntity] itself.  When nothing
    is at the path because a regular file is on the way to it, and more
    generally when the read fails otherwise, the result wraps the error of
    the read and is not [ErrNoSuchEntity], so [errors.Is] tells the two
    apart.  (Where the theorem speaks of what is at the path, the store is
    on a clean path and the type name and the rendering of [id] are plain
    names, so that the path as written is where it leads.) *)
Theorem GetByID_absent_or_read_failure db (dst id : any) w t elem :
  TypeOf dst = Some t → Kind_of t = Pointer → Elem t = Some elem →
  let file := entity_path db (Name elem) (sprint_v id) in
  let w1 := mkWorld (nodes w) (faults w) (EvReadFile file :: log w) in
  let failed err := Errorf_w "unable to get entity: " err in
  (clean_path (dir db) = true → plain_name (Name elem) = true →
     plain_name (sprint_v id) = true →
     faults w !! file = None → nodes w !! file = None →
     (∀ q, In q (ancestors file) → is_file (nodes w !! q) = false) →
     GetByID db dst id w = Return ((dst, Some ErrNoSuchEntity), w1))
  ∧ (clean_path (dir db) = true → plain_name (Name elem) = true →
     plain_name (sprint_v id) = true →
     faults w !! file = None → nodes w !! file = None →
     ∀ q, In q (ancestors file) → is_file (nodes w !! q) = true →
     GetByID db dst id w
     = Return ((dst, Some (failed (PathError "open" file (Errno ENOTDIR)))), w1))
  ∧ (∀ err, lookup_file w file = inr err →
       if errors_Is err os_ErrNotExist
       then GetByID db dst id w = Return ((dst, Some ErrNoSuchEntity), w1)
       else GetByID db dst id w = Return ((dst, Some (failed err)), w1)
            ∧ Unwrap (failed err) = Some err
            ∧ errors_Is (failed err) ErrNoSuchEntity = false)
  ∧ errors_Is ErrNoSuchEntity ErrNoSuchEntity = true.
Proof.
  intros HT HK HE file w1 failed.
  pose proof (GetByID_run db dst id w t elem HT HK HE) as Hrun.
  cbv zeta in Hrun. fold file in Hrun. fold w1 in Hrun.
  split; [|split; [|split; [|reflexivity]]].
  - intros _ _ _ Hf Hn Hway. rewrite Hrun. unfold lookup_file. rewrite Hf, Hn.
    destruct (blocked (nodes w) file) as [q|] eqn:Eb; [|reflexivity].
    destruct (blocked_Some _ _ _ Eb) as [Hq Hfile].
    rewrite (Hway q Hq) in Hfile. discriminate.
  - intros _ _ _ Hf Hn q Hq Hfile. rewrite Hrun. unfold lookup_file. rewrite Hf, Hn.
    destruct (blocked (nodes w) file) as [q'|] eqn:Eb; [reflexivity|].
    rewrite (blocked_None _ _ _ Eb Hq) in Hfile. discriminate.
  - intros err Herr. rewrite Hrun, Herr.
    destruct (errors_Is err os_ErrNotExist) eqn:HIs; [reflexivity|].
    split; [reflexivity|]. split; [reflexivity|].
    destruct (lookup_file_err _ _ _ Herr) as (op & e & ->).
    apply errors_Is_wrapped_PathError. reflexivity.
Qed.

(** C8. [GetByID] resolves no identifier field.  Whatever the destination,
    an error it returns is neither [ErrNoIDField] nor
    [ErrMultipleIDFields]; and with a pointer as destination, whatever the
    fields of the type pointed at, it returns, it leaves the store as it
    was, and the one path it reads is
    [<root>/<name of the type pointed at>/<rendering of id>]. *)
Theorem GetByID_resolves_no_identifier db (dst id : any) w :
  (∀ dst' e w', GetByID db dst id w = Return ((dst', Some e), w') →
     errors_Is e ErrNoIDField = false ∧ errors_Is e ErrMultipleIDFields = false)
  ∧ (∀ t elem, TypeOf dst = Some t → Kind_of t = Pointer → Elem t = Some elem →
       let file := entity_path db (Name elem) (sprint_v id) in
       ∃ dst' err w',
         GetByID db dst id w = Return ((dst', err), w')
         ∧ nodes w' = nodes w
         ∧ (log w' = EvReadFile file :: log w
            ∨ ∃ data, lookup_file w file = inl data
                      ∧ log w' = EvUnmarshal data :: EvReadFile file :: log w)).
Proof.
  split.
  - intros dst' e w' HG.
    destruct dst as [[t x]|]; [|discriminate].
    destruct (Kind_of t) eqn:HK;
      try (rewrite GetByID_non_pointer in HG by (rewrite HK; discriminate);
           injection HG as _ <- _; split; reflexivity).
    destruct (Kind_Pointer_Elem _ HK) as [elem HE].
    rewrite (GetByID_run db (Some (t, x)) id w t elem eq_refl HK HE) in HG. cbv zeta in HG.
    destruct (lookup_file w _) as [data|err] eqn:HL.
    + destruct (Unmarshal data _) as [d [text|]]; [|discriminate].
      injection HG as _ <- _. split; apply errors_Is_wrapped_JsonError.
    + injection HG as _ <- _.
      destruct (lookup_file_err _ _ _ HL) as (op & en & ->).
      destruct (errors_Is _ os_ErrNotExist); [split; reflexivity|].
      split; apply errors_Is_wrapped_PathError; reflexivity.
  - intros t elem HT HK HE file.
    rewrite (GetByID_run db dst id w t elem HT HK HE). cbv zeta. fold file.
    destruct (lookup_file w file) as [data|err] eqn:HL.
    + destruct (Unmarshal data dst) as [d [text|]];
        eexists _, _, _; (split; [reflexivity|]); (split; [reflexivity|]);
        right; exists data; split; reflexivity.
    + eexists _, _, _. split; [reflexivity|]. split; [reflexivity|].
      left. reflexivity.
Qed.

(** What [GetByID] into a fresh variable finds after a successful [Put] of
    [x], when [id] renders to the token of [x]: the encoding of [x], which
    it decodes. *)
Lemma GetByID_after_Put db t x token (id : any) w w' :
  Put db (Some (t, x)) w = Return (None, w') →
  token_of t x = Some token →
  sprint_v id = token →
  ∃ data,
    Marshal (Some (t, x)) = inl data
    ∧ nodes w' !! entity_path db (Name t) token = Some (File data)
    ∧ GetByID db (new t) id w' =
      let w1 := mkWorld (nodes w') (faults w')
                        (EvUnmarshal data
                           :: EvReadFile (entity_path db (Name t) token) :: log w') in
      match Unmarshal data (new t) with
      | (dst', Some text) =>
          Return ((dst', Some (Errorf_w "unable to unmarshal data: " (JsonError text))), w1)
      | (dst', None) => Return ((dst', None), w1)
      end.
Proof.
  intros HP HT Hid.
  destruct (Put_ok _ _ _ _ _ HP) as (token' & data & n1 & HT' & HM & _ & Hf & ->).
  rewrite HT in HT'. injection HT' as <-.
  exists data. split; [exact HM|]. split; [apply lookup_insert_eq|].
  rewrite (GetByID_run db (new t) id _ (TPtr t) t eq_refl eq_refl eq_refl).
  cbv zeta. rewrite Hid. unfold lookup_file. cbn [faults nodes log].
  rewrite Hf, lookup_insert_eq. reflexivity.
Qed.

(** C1, amended. For a record [x] with one identifier field, whose value
    renders to the token [id] renders to, and which the codec gives back
    when it decodes its encoding into a fresh variable: a successful [Put]
    of [x] followed by [GetByID] into a fresh variable of the type fills
    the variable with [x]. *)
Theorem round_trip_of_codec_round_trip db t x token (id : any) w :
  token_of t x = Some token →
  sprint_v id = token →
  codec_round_trips t x →
  round_trips db t x id w.
Proof.
  intros HT Hid Hcodec w' HP.
  destruct (GetByID_after_Put _ _ _ _ _ _ _ HP HT Hid) as (data & HM & _ & ->).
  cbv zeta. rewrite (Hcodec data HM). eexists. reflexivity.
Qed.

(** C6, amended. For two records of one type whose identifier values
    render to the token [id] renders to, the second of which the codec
    gives back: after successful [Put]s of the first and then the second,
    [GetByID] into a fresh variable fills it with the second, and the file
    of the entity holds the encoding of the second. *)
Theorem overwrite_of_codec_round_trip db t x1 x2 token (id : any) w :
  token_of t x1 = Some token →
  token_of t x2 = Some token →
  sprint_v id = token →
  codec_round_trips t x2 →
  last_writer_wins db t x1 x2 id w.
Proof.
  intros _ HT Hid Hcodec w1 w2 _ HP.
  destruct (GetByID_after_Put _ _ _ _ _ _ _ HP HT Hid) as (data & HM & Hn & ->).
  cbv zeta. rewrite (Hcodec data HM). split; [eexists; reflexivity|].
  exists data. rewrite Hid. auto.
Qed.

(** C3, amended. For two records whose types have distinct names, both
    plain file names, and whose identifier values render to the same token,
    a plain file name too: successful [Put]s write at the distinct paths
    [<root>/<type-name>/<token>], and the second leaves the file of the
    first as it was; and the two paths lead to two places also once "."
    and ".." are resolved. *)
Theorem namespaces_of_distinct_names db t1 x1 t2 x2 token w :
  plain_name (Name t1) = true →
  plain_name (Name t2) = true →
  plain_name token = true →
  Name t1 ≠ Name t2 →
  token_of t1 x1 = Some token →
  token_of t2 x2 = Some token →
  kept_apart db t1 x1 t2 x2 token w
  ∧ resolve (entity_path db (Name t1) token) ≠ resolve (entity_path db (Name t2) token).
Proof.
  intros Hp1 Hp2 Hpt Hne HT1 HT2. split; cycle 1.
  { unfold entity_path.
    destruct (resolve_plain (dir db) (Name t1) token Hp1 Hpt) as (stack & -> & Hr).
    rewrite (Hr _ Hp2). intros Heq. apply app_inv_head in Heq.
    injection Heq as Heq. contradiction. }
  intros w1 w2 HP1 HP2.
  destruct (Put_ok _ _ _ _ _ HP1) as (k1 & data1 & n1 & HT1' & _ & _ & _ & ->).
  rewrite HT1 in HT1'. injection HT1' as <-.
  destruct (Put_ok _ _ _ _ _ HP2) as (k2 & data2 & n2 & HT2' & _ & HMk & _ & ->).
  rewrite HT2 in HT2'. injection HT2' as <-.
  cbn [nodes faults log] in *.
  assert (Hpath : entity_path db (Name t1) token ≠ entity_path db (Name t2) token).
  { unfold entity_path. intros Heq.
    apply append_cancel_l, append_cancel_l in Heq.
    apply append_cancel_r in Heq. contradiction. }
  exists data1, data2. repeat split; auto.
  rewrite lookup_insert_ne by auto.
  destruct (mkdir_all_ok _ _ _ _ HMk) as (_ & _ & Hmono & _).
  apply Hmono, lookup_insert_eq.
Qed.

End Properties.

(** ** The claims on concrete records *)

Section Runs.

Import Examples.

Local Abbreviation fields_of t := (default [] (VisibleFields t)).

(** The three outcomes of resolution, on [Empty], [newType] and [Bad]. *)
Lemma identifier_resolution_trichotomy_witness :
  (VisibleFields Empty = Some (fields_of Empty)
   ∧ Put db (Some (Empty, VStruct [VInt 4])) w0 = Return (Some ErrNoIDField, w0))
  ∧ (VisibleFields newType = Some (fields_of newType)
     ∧ findIDField (fields_of newType) None
       = inr (Some (Field "Num" [("burrowdb", "ID")] TInt64)))
  ∧ (VisibleFields Bad = Some (fields_of Bad)
     ∧ Put db (Some (Bad, VStruct [VInt 1; VInt 2])) w0
       = Return (Some ErrMultipleIDFields, w0)).
Proof.
  split; [|split].
  - split; [reflexivity|].
    exact (proj1 (identifier_resolution_trichotomy
                    db Empty (VStruct [VInt 4]) w0 (fields_of Empty) eq_refl)).
  - split; [reflexivity|].
    exact (proj1 (proj1 (identifier_resolution_trichotomy
                           db newType oldVar w0 (fields_of newType) eq_refl))).
  - split; [reflexivity|].
    exact (proj1 (identifier_resolution_trichotomy
                    db Bad (VStruct [VInt 1; VInt 2]) w0 (fields_of Bad) eq_refl)).
Defined.

(** [NewDB(WithDir("store"))] and [NewDB()]: the directory is created, and
    is [burrow] when none is given. *)
Example NewDB_WithDir :
  NewDB [WithDir "store"] w0
  = Return (inl db, mkWorld {[ "store" := Dir ]} ∅ [EvMkdirAll "store"]).
Proof. vm_compute. reflexivity. Qed.

Example NewDB_default :
  NewDB [] w0
  = Return (inl (mkDB "burrow"), mkWorld {[ "burrow" := Dir ]} ∅ [EvMkdirAll "burrow"]).
Proof. vm_compute. reflexivity. Qed.

(** An integer and a pointer to a struct are both turned away. *)
Lemma Put_rejects_non_struct_witness :
  (Kind_of TInt ≠ Struct
   ∧ Put db (Some (TInt, VInt 5)) w0 = Return (Some ErrInvalidValueType, w0))
  ∧ (Kind_of (TPtr newType) ≠ Struct
     ∧ Put db (pointer_to newType oldVar) w0 = Return (Some ErrInvalidValueType, w0)).
Proof.
  split; (split; [discriminate|]).
  - apply (Put_rejects_non_struct db TInt (VInt 5) w0). discriminate.
  - apply (Put_rejects_non_struct db (TPtr newType) (VPtr (Some oldVar)) w0).
    discriminate.
Defined.

(** A record that cannot be encoded leaves the store empty. *)
Lemma Put_failure_leaves_store_witness :
  ∃ err w',
    Put db (Some (Pipe, pipe)) w0 = Return (Some err, w')
    ∧ err = Errorf_v "unable to marshal value: "
              (JsonError "json: unsupported type: chan int")
    ∧ nodes w' = nodes w0 ∧ faults w' = faults w0
    ∧ (log w' = log w0 ∨ log w' = EvMarshal (Some (Pipe, pipe)) :: log w0).
Proof.
  eexists _, _.
  assert (HP : Put db (Some (Pipe, pipe)) w0
               = Return (Some (Errorf_v "unable to marshal value: "
                                 (JsonError "json: unsupported type: chan int")),
                         mkWorld ∅ ∅ [EvMarshal (Some (Pipe, pipe))]))
    by (vm_compute; reflexivity).
  split; [exact HP|]. split; [reflexivity|].
  apply (Put_failure_leaves_store db (Some (Pipe, pipe)) w0 _ _ HP).
  right. right. right. eexists. reflexivity.
Defined.

(** Nothing stored: [ErrNoSuchEntity].  A regular file in the place of the
    type directory, or an entity file that cannot be opened: an error that
    wraps the one of the read. *)
Lemma GetByID_absent_or_read_failure_witness :
  GetByID db (new newType) id123 w0
  = Return ((new newType, Some ErrNoSuchEntity),
            mkWorld ∅ ∅ [EvReadFile "store/newType/123"])
  ∧ GetByID db (new newType) id123 w_misplaced
    = Return ((new newType,
               Some (Errorf_w "unable to get entity: "
                       (PathError "open" "store/newType/123" (Errno ENOTDIR)))),
              mkWorld (nodes w_misplaced) ∅ [EvReadFile "store/newType/123"])
  ∧ GetByID db (new newType) id123 w_denied
    = Return ((new newType,
               Some (Errorf_w "unable to get entity: "
                       (PathError "open" "store/newType/123" (Errno EACCES)))),
              mkWorld ∅ (faults w_denied) [EvReadFile "store/newType/123"]).
Proof.
  pose proof (GetByID_absent_or_read_failure
                db (new newType) id123 w0 (TPtr newType) newType
                eq_refl eq_refl eq_refl) as (H0 & _).
  pose proof (GetByID_absent_or_read_failure
                db (new newType) id123 w_misplaced (TPtr newType) newType
                eq_refl eq_refl eq_refl) as (_ & H1 & _).
  pose proof (GetByID_absent_or_read_failure
                db (new newType) id123 w_denied (TPtr newType) newType
                eq_refl eq_refl eq_refl) as (_ & _ & H2 & _).
  split; [|split].
  - etransitivity; [|vm_compute; reflexivity].
    apply H0; vm_compute; reflexivity.
  - etransitivity; [|vm_compute; reflexivity].
    apply (H1 eq_refl eq_refl eq_refl eq_refl eq_refl "store/newType").
    + vm_compute. right. left. reflexivity.
    + vm_compute. reflexivity.
  - assert (HL : lookup_file w_denied (entity_path db (Name newType) (sprint_v id123))
                 = inr (PathError "open" "store/newType/123" (Errno EACCES)))
      by (vm_compute; reflexivity).
    specialize (H2 _ HL). simpl (errors_Is _ os_ErrNotExist) in H2.
    destruct H2 as [H2 _].
    etransitivity; [exact H2|]. vm_compute. reflexivity.
Defined.

(** C5, as stated, fails where a regular file lies on the way to the path:
    nothing is at [store/newType/123], and [GetByID] returns an error that
    wraps ENOTDIR and is not [ErrNoSuchEntity]. *)
Lemma GetByID_absent_counterexample :
  nodes w_misplaced !! entity_path db (Name newType) (sprint_v id123) = None
  ∧ faults w_misplaced !! entity_path db (Name newType) (sprint_v id123) = None
  ∧ ∃ err w',
      GetByID db (new newType) id123 w_misplaced = Return ((new newType, Some err), w')
      ∧ Unwrap err = Some (PathError "open" "store/newType/123" (Errno ENOTDIR))
      ∧ err ≠ ErrNoSuchEntity
      ∧ errors_Is err ErrNoSuchEntity = false.
Proof.
  split; [vm_compute; reflexivity|]. split; [vm_compute; reflexivity|].
  eexists _, _. split; [vm_compute; reflexivity|].
  split; [reflexivity|]. split; [discriminate|reflexivity].
Qed.

(** [GetByID] into a [Bad], which has two identifier fields, reads
    [store/Bad/1] and reports that nothing is there. *)
Lemma GetByID_resolves_no_identifier_witness :
  List.filter eligible (fields_of Bad) = fields_of Bad
  ∧ ∃ dst' err w',
      GetByID db (new Bad) id1 w0 = Return ((dst', err), w')
      ∧ nodes w' = nodes w0
      ∧ (log w' = EvReadFile "store/Bad/1" :: log w0
         ∨ ∃ data, lookup_file w0 "store/Bad/1" = inl data
                   ∧ log w' = EvUnmarshal data :: EvReadFile "store/Bad/1" :: log w0).
Proof.
  split; [reflexivity|].
  exact (proj2 (GetByID_resolves_no_identifier db (new Bad) id1 w0)
           (TPtr Bad) Bad eq_refl eq_refl eq_refl).
Defined.

Lemma codec_round_trips_oldVar : codec_round_trips newType oldVar.
Proof.
  intros data H. vm_compute in H. injection H as <-. vm_compute. reflexivity.
Defined.

(** The program of [cmd/main.go]: [Put] succeeds and [GetByID] finds the
    record again. *)
Lemma round_trip_of_codec_round_trip_witness :
  token_of newType oldVar = Some "123"
  ∧ sprint_v id123 = "123"
  ∧ codec_round_trips newType oldVar
  ∧ (∃ w', Put db (Some (newType, oldVar)) w0 = Return (None, w'))
  ∧ round_trips db newType oldVar id123 w0.
Proof.
  split; [reflexivity|]. split; [reflexivity|].
  split; [exact codec_round_trips_oldVar|].
  split; [eexists; vm_compute; reflexivity|].
  exact (round_trip_of_codec_round_trip db newType oldVar "123" id123 w0
           eq_refl eq_refl codec_round_trips_oldVar).
Defined.

(** C1, as stated, fails on a record with a field that is not exported:
    [Put] of [Note{1, "call back"}] succeeds, and [GetByID] then fills the
    fresh variable with [Note{1, ""}]. *)
Lemma round_trip_counterexample :
  token_of Note memo = Some "1"
  ∧ sprint_v id1 = "1"
  ∧ (∃ w', Put db (Some (Note, memo)) w0 = Return (None, w')
           ∧ ∃ w'', GetByID db (new Note) id1 w'
                    = Return ((pointer_to Note blank, None), w''))
  ∧ ¬ round_trips db Note memo id1 w0.
Proof.
  split; [reflexivity|]. split; [reflexivity|].
  eassert (HP : Put db (Some (Note, memo)) w0 = Return (None, _))
    by (vm_compute; reflexivity).
  split.
  - eexists. split; [exact HP|]. eexists. vm_compute. reflexivity.
  - intros H. destruct (H _ HP) as [w'' HG]. vm_compute in HG. discriminate.
Qed.

Lemma codec_round_trips_order : codec_round_trips shop_Order order.
Proof.
  intros data H. vm_compute in H. injection H as <-. vm_compute. reflexivity.
Defined.

(** Two orders under one identifier: the second is the one found. *)
Lemma overwrite_of_codec_round_trip_witness :
  token_of shop_Order (VStruct [VInt 1; VInt 9]) = Some "1"
  ∧ token_of shop_Order order = Some "1"
  ∧ sprint_v id1 = "1"
  ∧ codec_round_trips shop_Order order
  ∧ (∃ w1 w2, Put db (Some (shop_Order, VStruct [VInt 1; VInt 9])) w0 = Return (None, w1)
              ∧ Put db (Some (shop_Order, order)) w1 = Return (None, w2))
  ∧ last_writer_wins db shop_Order (VStruct [VInt 1; VInt 9]) order id1 w0.
Proof.
  split; [reflexivity|]. split; [reflexivity|]. split; [reflexivity|].
  split; [exact codec_round_trips_order|].
  split.
  { eassert (HP1 : Put db (Some (shop_Order, VStruct [VInt 1; VInt 9])) w0
                   = Return (None, _)) by (vm_compute; reflexivity).
    eexists _, _. split; [exact HP1|]. vm_compute. reflexivity. }
  exact (overwrite_of_codec_round_trip
           db shop_Order (VStruct [VInt 1; VInt 9]) order "1" id1 w0
           eq_refl eq_refl eq_refl codec_round_trips_order).
Defined.

(** C6, as stated, fails on records with a field that is not exported:
    after [Put] of [Note{1, ""}] and then of [Note{1, "call back"}],
    [GetByID] fills the fresh variable with the first of the two. *)
Lemma overwrite_counterexample :
  token_of Note blank = Some "1"
  ∧ token_of Note memo = Some "1"
  ∧ sprint_v id1 = "1"
  ∧ (∃ w1 w2 w3,
       Put db (Some (Note, blank)) w0 = Return (None, w1)
       ∧ Put db (Some (Note, memo)) w1 = Return (None, w2)
       ∧ GetByID db (new Note) id1 w2 = Return ((pointer_to Note blank, None), w3))
  ∧ ¬ last_writer_wins db Note blank memo id1 w0.
Proof.
  split; [reflexivity|]. split; [reflexivity|]. split; [reflexivity|].
  eassert (HP1 : Put db (Some (Note, blank)) w0 = Return (None, _))
    by (vm_compute; reflexivity).
  match type of HP1 with
  | _ = Return (None, ?w1) =>
      eassert (HP2 : Put db (Some (Note, memo)) w1 = Return (None, _))
        by (vm_compute; reflexivity)
  end.
  split.
  - eexists _, _, _. split; [exact HP1|]. split; [exact HP2|].
    vm_compute. reflexivity.
  - intros H. destruct (H _ _ HP1 HP2) as [[w3 HG] _].
    vm_compute in HG. discriminate.
Qed.

(** An item and an order under one identifier lie at two paths. *)
Lemma namespaces_of_distinct_names_witness :
  Name shop_Item ≠ Name shop_Order
  ∧ token_of shop_Item sold = Some "1"
  ∧ token_of shop_Order order = Some "1"
  ∧ (∃ w1 w2, Put db (Some (shop_Item, sold)) w0 = Return (None, w1)
              ∧ Put db (Some (shop_Order, order)) w1 = Return (None, w2))
  ∧ kept_apart db shop_Item sold shop_Order order "1" w0
  ∧ resolve "store/Item/1" ≠ resolve "store/Order/1".
Proof.
  split; [discriminate|]. split; [reflexivity|]. split; [reflexivity|].
  split.
  { eassert (HP1 : Put db (Some (shop_Item, sold)) w0 = Return (None, _))
      by (vm_compute; reflexivity).
    eexists _, _. split; [exact HP1|]. vm_compute. reflexivity. }
  apply (namespaces_of_distinct_names db shop_Item sold shop_Order order "1" w0);
    [reflexivity|reflexivity|reflexivity|discriminate|reflexivity|reflexivity].
Defined.

(** Why the token of C3 must be a plain name: through ".." the paths of two
    types lead to one place. *)
Lemma resolve_dotdot :
  resolve "store/Item/../1" = resolve "store/Order/../1".
Proof. reflexivity. Qed.

(** C3, as stated, fails on two types of the same name: [shop.Item] and
    [depot.Item] are distinct types, their records 1 are both written at
    [store/Item/1], and the second replaces the first. *)
Lemma namespaces_counterexample :
  shop_Item ≠ depot_Item
  ∧ token_of shop_Item sold = Some "1"
  ∧ token_of depot_Item shelved = Some "1"
  ∧ (∃ w1 w2 data1 data2,
       Put db (Some (shop_Item, sold)) w0 = Return (None, w1)
       ∧ Put db (Some (depot_Item, shelved)) w1 = Return (None, w2)
       ∧ written w1 = Some ("store/Item/1", data1)
       ∧ written w2 = Some ("store/Item/1", data2)
       ∧ nodes w2 !! "store/Item/1" = Some (File data2)
       ∧ data1 ≠ data2)
  ∧ ¬ kept_apart db shop_Item sold depot_Item shelved "1" w0.
Proof.
  split; [discriminate|]. split; [reflexivity|]. split; [reflexivity|].
  eassert (HP1 : Put db (Some (shop_Item, sold)) w0 = Return (None, _))
    by (vm_compute; reflexivity).
  match type of HP1 with
  | _ = Return (None, ?w1) =>
      eassert (HP2 : Put db (Some (depot_Item, shelved)) w1 = Return (None, _))
        by (vm_compute; reflexivity)
  end.
  split.
  - eexists _, _, _, _. split; [exact HP1|]. split; [exact HP2|].
    split; [reflexivity|]. split; [reflexivity|].
    split; [vm_compute; reflexivity|]. discriminate.
  - intros H. destruct (H _ _ HP1 HP2) as (d1 & d2 & _ & _ & Hne & _).
    apply Hne. reflexivity.
Qed.

(** C4 on a record the codec rejects: the error [Put] returns carries the
    text of the codec error and no cause, so [errors.Unwrap] gives nothing;
    the error it returns when the write fails does carry its cause. *)
Theorem Put_encoding_failure_is_not_wrapped :
  Marshal (Some (Pipe, pipe)) = inr "json: unsupported type: chan int"
  ∧ (∃ err w',
       Put db (Some (Pipe, pipe)) w0 = Return (Some err, w')
       ∧ Error err = "unable to marshal value: json: unsupported type: chan int"
       ∧ Unwrap err = None)
  ∧ (∃ err w',
       Put db (Some (newType, oldVar)) w_denied = Return (Some err, w')
       ∧ Error err
         = "unable to write file: open store/newType/123: permission denied"
       ∧ Unwrap err = Some (PathError "open" "store/newType/123" (Errno EACCES))).
Proof.
  split; [reflexivity|]. split.
  - eexists _, _. split.
    + apply (Put_marshal_error db Pipe pipe w0 "7"); reflexivity.
    + split; reflexivity.
  - eexists _, _. split; [vm_compute; reflexivity|]. split; reflexivity.
Qed.

End Runs.


(** * Beyond the claims: [NewDB], and more of [Put] and [GetByID] *)

(** ** Strings *)

Lemma append_ne_self (s r : string) (c : ascii) : s ≠ s +:+ String.String c r.
Proof.
  intros H. apply (f_equal String.length) in H. rewrite append_length in H.
  cbn in H. lia.
Qed.

Lemma last_default_irrelevant {A} (l : list A) (a b : A) :
  l ≠ [] → List.last l a = List.last l b.
Proof.
  induction l as [|x [|y l] IH]; intros H; [contradiction|reflexivity|].
  change (List.last (y :: l) a = List.last (y :: l) b). apply IH. discriminate.
Qed.

Lemma has_separator_app (a r : string) : has_separator (a +:+ "/" +:+ r) = true.
Proof.
  induction a as [|c a IH]; [reflexivity|].
  change (has_separator (String.String c (a +:+ "/" +:+ r)) = true).
  cbn [has_separator]. rewrite IH. apply orb_true_r.
Qed.

Section More.

Context {bytes : Type} `{!Runtime bytes}.

Implicit Types (db : BurrowDB) (w : World bytes) (t : rtype) (x : Value).

(** ** Helpers *)

Lemma typeDir_ne_file db (name token : string) :
  dir db +:+ "/" +:+ name ≠ entity_path db name token.
Proof.
  unfold entity_path. intros H.
  apply append_cancel_l, append_cancel_l in H.
  exact (append_ne_self name token "/"%char H).
Qed.

(** The path of an entity is longer than the directory of its type. *)
Lemma typeDir_shorter db (name token : string) :
  (String.length (dir db +:+ "/" +:+ name)
   < String.length (entity_path db name token))%nat.
Proof.
  unfold entity_path. rewrite !append_length. cbn [String.length]. lia.
Qed.

(** No entity of a type lies on the way to another one, when the token of
    the latter is a plain name. *)
Lemma entity_not_on_the_way db (name token token' : string) :
  has_separator token' = false →
  ¬ In (entity_path db name token) (ancestors (entity_path db name token')).
Proof.
  intros Hplain Hin. apply ancestors_prefix in Hin as [r Hr].
  unfold entity_path in Hr. rewrite !append_assoc in Hr.
  do 4 apply append_cancel_l in Hr.
  rewrite Hr, has_separator_app in Hplain. discriminate.
Qed.

(** [NewDB], run: the options in order, the default, the directory. *)
Lemma NewDB_run (opts : list newDBOption) w :
  NewDB opts w =
  match apply_options opts (mkDB "") with
  | inr err => Return (inr err, w)
  | inl db0 =>
      let root := if String.eqb (dir db0) "" then "burrow" else dir db0 in
      let made := mkdir_all (faults w) (nodes w) root in
      Return (match fst made with
              | Some err =>
                  inr (errorString ("unable to create directory ("
                                    +:+ strconv_Quote root +:+ "): " +:+ Error err))
              | None => inl (mkDB root)
              end,
              mkWorld (snd made) (faults w) (EvMkdirAll root :: log w))
  end.
Proof.
  unfold NewDB. destruct (apply_options opts (mkDB "")) as [[d]|err]; [|reflexivity].
  cbn [dir]. unfold bind. cbv zeta.
  destruct (String.eqb d ""); cbn [dir]; rewrite os_MkdirAll_run;
    destruct (fst (mkdir_all _ _ _)); reflexivity.
Qed.

Lemma apply_options_WithDir (ds : list string) (db0 : BurrowDB) :
  apply_options (map WithDir ds) db0 = inl (mkDB (List.last ds (dir db0))).
Proof.
  revert db0. induction ds as [|d ds IH]; intros [d0]; [reflexivity|].
  cbn [map apply_options WithDir]. rewrite IH. cbn [dir].
  destruct ds as [|d' ds]; [reflexivity|].
  f_equal. f_equal.
  change (List.last (d' :: ds) d = List.last (d' :: ds) d0).
  apply last_default_irrelevant. discriminate.
Qed.

Lemma apply_options_app (pre post : list newDBOption) (db0 db1 : BurrowDB) :
  apply_options pre db0 = inl db1 →
  apply_options (pre ++ post) db0 = apply_options post db1.
Proof.
  revert db0. induction pre as [|opt pre IH]; intros db0 H; cbn in *.
  - injection H as ->. reflexivity.
  - destruct (opt db0) as [db' [err|]]; [discriminate|]. apply IH, H.
Qed.

Lemma apply_options_error (opts : list newDBOption) (db0 : BurrowDB) err :
  apply_options opts db0 = inr err → ∃ msg, err = errorString msg.
Proof.
  revert db0. induction opts as [|opt opts IH]; intros db0; cbn; [discriminate|].
  destruct (opt db0) as [db' [e|]]; [intros [= <-]; eexists; reflexivity|apply IH].
Qed.

(** ** [NewDB] and [WithDir] *)

(** X1. Of several [WithDir] options the last one decides, and an empty
    directory, like no option at all, means [burrow]: [NewDB] does with the
    options what it does with the last of them alone, and the store it
    returns is on the directory of the last one, or on [burrow]. *)
Theorem NewDB_last_WithDir_decides (ds : list string) w :
  NewDB (map WithDir ds) w = NewDB [WithDir (List.last ds "")] w
  ∧ NewDB [WithDir ""] w = NewDB [WithDir "burrow"] w
  ∧ NewDB [] w = NewDB [WithDir "burrow"] w
  ∧ ∀ db w', NewDB (map WithDir ds) w = Return (inl db, w') →
      dir db = if String.eqb (List.last ds "") "" then "burrow" else List.last ds "".
Proof.
  split; [|split; [|split]].
  - rewrite !NewDB_run, apply_options_WithDir. reflexivity.
  - rewrite !NewDB_run. reflexivity.
  - rewrite !NewDB_run. reflexivity.
  - intros db w'. rewrite NewDB_run, apply_options_WithDir. cbn [dir]. cbv zeta.
    destruct (fst (mkdir_all _ _ _)); [discriminate|].
    intros [= <- _]. reflexivity.
Qed.

(** X2. A store that [NewDB] returns has a directory that is not empty,
    and that directory exists afterwards.  With [WithDir] options, whatever
    was in the file system is still there, and no regular file has appeared
    or changed: directories are all that [NewDB] creates. *)
Theorem NewDB_success (opts : list newDBOption) w db w' :
  NewDB opts w = Return (inl db, w') →
  dir db ≠ ""
  ∧ nodes w' !! dir db = Some Dir
  ∧ ((∃ ds, opts = map WithDir ds) →
     (∀ p node, nodes w !! p = Some node → nodes w' !! p = Some node)
     ∧ (∀ p data, nodes w' !! p = Some (File data) → nodes w !! p = Some (File data))
     ∧ faults w' = faults w).
Proof.
  rewrite NewDB_run.
  destruct (apply_options opts (mkDB "")) as [[d]|err]; [|discriminate].
  cbn [dir]. cbv zeta.
  set (root := if String.eqb d "" then "burrow" else d).
  assert (Hroot : root ≠ "").
  { unfold root. destruct (String.eqb_spec d ""); [discriminate|assumption]. }
  destruct (mkdir_all (faults w) (nodes w) root) as [[err|] n'] eqn:EM;
    cbn [fst snd]; [discriminate|].
  intros [= <- <-]. cbn [dir nodes faults].
  destruct (mkdir_all_ok _ _ _ _ EM) as (_ & Hdir & Hmono & Hch & _).
  split; [exact Hroot|]. split; [exact Hdir|]. intros _.
  split; [exact Hmono|]. split; [|reflexivity].
  intros p data Hp. destruct (Hch p) as [Heq|[_ Hd]]; congruence.
Qed.

(** X3. An error of [NewDB] has no cause: both of its failure paths format
    theirs with [%v], so that [errors.Unwrap] gives nothing and [errors.Is]
    does not find the sentinels of package [os] in it, not even when the
    directory could not be created for one of them. *)
Theorem NewDB_failure (opts : list newDBOption) w err w' :
  NewDB opts w = Return (inr err, w') →
  Unwrap err = None
  ∧ errors_Is err os_ErrPermission = false
  ∧ errors_Is err os_ErrExist = false
  ∧ errors_Is err os_ErrNotExist = false.
Proof.
  rewrite NewDB_run.
  destruct (apply_options opts (mkDB "")) as [[d]|err0] eqn:EA.
  - cbv zeta. destruct (fst (mkdir_all _ _ _)); [|discriminate].
    intros [= <- _]. repeat split.
  - intros [= <- _]. destruct (apply_options_error _ _ _ EA) as [msg ->].
    repeat split.
Qed.

(** X4. The first option that fails ends [NewDB]: the options after it are
    not applied, no directory is created, and the error is the text of the
    option's error after "error applying option: ". *)
Theorem NewDB_option_error (pre post : list newDBOption) (opt : newDBOption)
    (db1 db2 : BurrowDB) (err : GoError) w :
  apply_options pre (mkDB "") = inl db1 →
  opt db1 = (db2, Some err) →
  NewDB (pre ++ opt :: post) w
  = Return (inr (errorString ("error applying option: " +:+ Error err)), w).
Proof.
  intros Hpre Hopt. rewrite NewDB_run, (apply_options_app _ _ _ _ Hpre).
  cbn [apply_options]. rewrite Hopt. reflexivity.
Qed.

(** ** More of [Put] *)

(** X8. [Put] is idempotent on the store: after a [Put] that succeeds, the
    same [Put] succeeds again and leaves every path as the first left it. *)
Theorem Put_idempotent db t x w w1 :
  Put db (Some (t, x)) w = Return (None, w1) →
  ∃ w2, Put db (Some (t, x)) w1 = Return (None, w2)
        ∧ nodes w2 = nodes w1 ∧ faults w2 = faults w1.
Proof.
  intros HP.
  destruct (Put_ok _ _ _ _ _ HP) as (token & data & n1 & HT & HM & HMk & Hff & ->).
  destruct (mkdir_all_ok _ _ _ _ HMk) as (Hfd & Hd & _).
  set (file := entity_path db (Name t) token) in *.
  set (dirp := dir db +:+ "/" +:+ Name t) in *.
  set (n2 := <[file := File data]> n1).
  assert (Hfile : n2 !! file = Some (File data)) by apply lookup_insert_eq.
  assert (Hdir : n2 !! dirp = Some Dir).
  { unfold n2. rewrite lookup_insert_ne; [exact Hd|].
    intros Heq. exact (typeDir_ne_file _ _ _ (eq_sym Heq)). }
  rewrite (Put_run db t x _ token HT). cbv zeta. cbn [nodes faults log].
  fold dirp file n2. rewrite HM.
  rewrite (mkdir_all_present _ _ _ Hfd Hdir). cbn [fst snd].
  rewrite (write_file_present _ _ _ data _ Hff Hfile). cbn [fst snd].
  eexists. split; [reflexivity|]. cbn [nodes faults].
  split; [apply insert_id, Hfile|reflexivity].
Qed.

(** X9. Entities of one type under different identifiers do not touch each
    other.  For a store on a clean path, a type with a plain name and two
    tokens that are plain names and differ: a [Put] that succeeds under the
    one leaves what [GetByID] returns under the other as it was, an entity
    and its absence alike. *)
Theorem Put_keeps_other_entities db t x w w' token (dst id : any) pt elem :
  Put db (Some (t, x)) w = Return (None, w') →
  token_of t x = Some token →
  TypeOf dst = Some pt → Kind_of pt = Pointer → Elem pt = Some elem →
  Name elem = Name t →
  clean_path (dir db) = true →
  plain_name (Name t) = true →
  plain_name token = true →
  plain_name (sprint_v id) = true →
  sprint_v id ≠ token →
  ∃ r w1 w1', GetByID db dst id w = Return (r, w1)
              ∧ GetByID db dst id w' = Return (r, w1').
Proof.
  intros HP HT HTy HK HE HN _ _ _ Hpid Hid.
  apply plain_name_no_separator in Hpid.
  destruct (Put_ok _ _ _ _ _ HP) as (token' & data & n1 & HT' & _ & HMk & _ & Hw').
  rewrite HT in HT'. injection HT' as <-.
  rewrite (GetByID_run db dst id w pt elem HTy HK HE).
  rewrite (GetByID_run db dst id w' pt elem HTy HK HE).
  cbv zeta. rewrite HN.
  set (file := entity_path db (Name t) (sprint_v id)).
  set (file1 := entity_path db (Name t) token) in *.
  set (dirp := dir db +:+ "/" +:+ Name t) in *.
  destruct (mkdir_all_ok _ _ _ _ HMk) as (_ & _ & _ & Hch & Hfar).
  assert (Hne : file1 ≠ file).
  { unfold file, file1, entity_path. intros Heq.
    do 4 apply append_cancel_l in Heq. congruence. }
  assert (Hn : (<[file1 := File data]> n1) !! file = nodes w !! file).
  { rewrite lookup_insert_ne by exact Hne. apply Hfar.
    - intros Heq. exact (typeDir_ne_file _ _ _ (eq_sym Heq)).
    - intros Hin. apply ancestors_shorter in Hin.
      pose proof (typeDir_shorter db (Name t) (sprint_v id)) as Hlen.
      fold file dirp in Hlen. lia. }
  assert (Hb : blocked (<[file1 := File data]> n1) file = None
               ↔ blocked (nodes w) file = None).
  { apply blocked_ext. intros q Hq.
    assert (Hq1 : file1 ≠ q).
    { intros <-. exact (entity_not_on_the_way db _ _ _ Hpid Hq). }
    rewrite lookup_insert_ne by exact Hq1.
    destruct (Hch q) as [->|[-> ->]]; reflexivity. }
  assert (HL : lookup_file w' file = lookup_file w file).
  { unfold lookup_file. rewrite Hw'. cbn [nodes faults]. rewrite Hn.
    destruct (faults w !! file); [reflexivity|].
    destruct (nodes w !! file) as [[?|]|]; [reflexivity|reflexivity|].
    destruct (blocked (<[file1 := File data]> n1) file) as [q1|],
             (blocked (nodes w) file) as [q2|]; try reflexivity.
    - destruct Hb as [_ Hb]. discriminate Hb. reflexivity.
    - destruct Hb as [Hb _]. discriminate Hb. reflexivity. }
  rewrite HL. destruct (lookup_file w file) as [d|e].
  - destruct (Unmarshal d dst) as [dst' [text|]]; eexists _, _, _; split; reflexivity.
  - eexists _, _, _; split; reflexivity.
Qed.


(** ** More of [GetByID] *)

(** X10. [GetByID] only reads: whatever it returns, every path and every
    fault is as it was; and when it returns an error other than one of the
    decoder, the destination is as it was. *)
Theorem GetByID_keeps_store_and_destination db (dst id : any) w dst' err w' :
  GetByID db dst id w = Return ((dst', err), w') →
  nodes w' = nodes w ∧ faults w' = faults w
  ∧ ∀ e, err = Some e → (∀ text, Unwrap e ≠ Some (JsonError text)) → dst' = dst.
Proof.
  intros HG. destruct dst as [[t x]|]; [|discriminate].
  destruct (Kind_of t) eqn:HK;
    try (rewrite GetByID_non_pointer in HG by (rewrite HK; discriminate);
         injection HG as <- <- <-; auto).
  destruct (Kind_Pointer_Elem _ HK) as [elem HE].
  rewrite (GetByID_run db (Some (t, x)) id w t elem eq_refl HK HE) in HG.
  cbv zeta in HG. destruct (lookup_file w _) as [data|e0].
  - destruct (Unmarshal data _) as [d [text|]]; injection HG as <- <- <-;
      (split; [reflexivity|]); (split; [reflexivity|]); intros e [= <-] Hne.
    exfalso. eapply Hne. reflexivity.
  - injection HG as <- <- <-. auto.
Qed.

(** X11. With a typed destination that is not a pointer, a struct passed by
    value for one, [GetByID] returns [ErrNonPointerDst] before it reads
    anything: the world is as it was, log included. *)
Theorem GetByID_rejects_non_pointer db t x (id : any) w :
  Kind_of t ≠ Pointer →
  GetByID db (Some (t, x)) id w = Return ((Some (t, x), Some ErrNonPointerDst), w).
Proof.
  intros HK. unfold GetByID, TypeOf. cbn [fmap option_fmap option_map fst].
  unfold bind, Type_Kind, ret.
  destruct (Kind_of t) eqn:E; try reflexivity.
  exfalso. apply HK. reflexivity.
Qed.

(** X12. What is stored carries no type beyond a name and no identifier
    beyond its rendering: after a [Put] that succeeds, [GetByID] under any
    [id] that renders to the token of the record, into a pointer to any type
    of the same name, reads the encoding of the record and returns what the
    decoder makes of it in that destination. *)
Theorem GetByID_reads_by_name_and_rendering
    db t x w w' token (dst id : any) pt elem :
  Put db (Some (t, x)) w = Return (None, w') →
  token_of t x = Some token →
  sprint_v id = token →
  TypeOf dst = Some pt → Kind_of pt = Pointer → Elem pt = Some elem →
  Name elem = Name t →
  ∃ data w'',
    Marshal (Some (t, x)) = inl data
    ∧ GetByID db dst id w'
      = Return ((fst (Unmarshal data dst),
                 (λ text, Errorf_w "unable to unmarshal data: " (JsonError text))
                   <$> snd (Unmarshal data dst)), w'').
Proof.
  intros HP HT Hid HTy HK HE HN.
  destruct (Put_ok _ _ _ _ _ HP) as (token' & data & n1 & HT' & HM & _ & Hf & ->).
  rewrite HT in HT'. injection HT' as <-.
  exists data. rewrite (GetByID_run db dst id _ pt elem HTy HK HE).
  cbv zeta. rewrite HN, Hid. unfold lookup_file. cbn [faults nodes log].
  rewrite Hf, lookup_insert_eq.
  destruct (Unmarshal data dst) as [dst' [text|]]; eexists; split; auto.
Qed.


End More.

(** ** The further properties on concrete records *)

Section MoreRuns.

Import Examples.

(** [NewDB(WithDir("tmp"), WithDir("store"))] is a store on [store]. *)
Lemma NewDB_last_WithDir_decides_witness :
  NewDB [WithDir "tmp"; WithDir "store"] w0
  = Return (inl db, mkWorld {[ "store" := Dir ]} ∅ [EvMkdirAll "store"])
  ∧ dir db = "store".
Proof.
  assert (HN : NewDB (map WithDir ["tmp"; "store"]) w0
               = Return (inl db, mkWorld {[ "store" := Dir ]} ∅ [EvMkdirAll "store"]))
    by (vm_compute; reflexivity).
  split; [exact HN|].
  exact (proj2 (proj2 (proj2 (NewDB_last_WithDir_decides ["tmp"; "store"] w0))) _ _ HN).
Defined.

(** [NewDB(WithDir("var/store"))] creates [var] and [var/store]. *)
Lemma NewDB_success_witness :
  ∃ w', NewDB [WithDir "var/store"] w0 = Return (inl (mkDB "var/store"), w')
        ∧ nodes w' !! "var" = Some Dir
        ∧ nodes w' !! "var/store" = Some Dir
        ∧ (∀ p data, nodes w' !! p = Some (File data) → nodes w0 !! p = Some (File data)).
Proof.
  eassert (HN : NewDB [WithDir "var/store"] w0 = Return (inl (mkDB "var/store"), _))
    by (vm_compute; reflexivity).
  eexists. split; [exact HN|]. split; [vm_compute; reflexivity|].
  destruct (NewDB_success [WithDir "var/store"] w0 _ _ HN) as (_ & Hd & Hrest).
  split; [exact Hd|].
  destruct Hrest as (_ & Hfiles & _); [exists ["var/store"]; reflexivity|].
  exact Hfiles.
Defined.

(** Where [store] is a regular file, [NewDB(WithDir("store/data"))] fails,
    and the error does not tell [errors.Is] why. *)
Lemma NewDB_failure_witness :
  ∃ err w', NewDB [WithDir "store/data"] w_blocked = Return (inr err, w')
            ∧ Unwrap err = None
            ∧ errors_Is err os_ErrPermission = false
            ∧ errors_Is err os_ErrExist = false
            ∧ errors_Is err os_ErrNotExist = false.
Proof.
  eassert (HN : NewDB [WithDir "store/data"] w_blocked = Return (inr _, _))
    by (vm_compute; reflexivity).
  eexists _, _. split; [exact HN|].
  exact (NewDB_failure [WithDir "store/data"] w_blocked _ _ HN).
Defined.

Lemma NewDB_option_error_witness :
  apply_options [WithDir "tmp"] (mkDB "") = inl (mkDB "tmp")
  ∧ failing_option (mkDB "tmp") = (mkDB "tmp", Some (errors_New "bad option"))
  ∧ NewDB [WithDir "tmp"; failing_option; WithDir "other"] w0
    = Return (inr (errorString "error applying option: bad option"), w0).
Proof.
  split; [reflexivity|]. split; [reflexivity|].
  exact (NewDB_option_error [WithDir "tmp"] [WithDir "other"] failing_option
           (mkDB "tmp") (mkDB "tmp") (errors_New "bad option") w0 eq_refl eq_refl).
Defined.

Lemma Put_idempotent_witness :
  ∃ w1, Put db (Some (newType, oldVar)) w0 = Return (None, w1)
        ∧ ∃ w2, Put db (Some (newType, oldVar)) w1 = Return (None, w2)
                ∧ nodes w2 = nodes w1 ∧ faults w2 = faults w1.
Proof.
  eassert (HP : Put db (Some (newType, oldVar)) w0 = Return (None, _))
    by (vm_compute; reflexivity).
  eexists. split; [exact HP|].
  exact (Put_idempotent db newType oldVar w0 _ HP).
Defined.

(** Order 2 is stored; storing order 1 leaves it to be found as before. *)
Lemma Put_keeps_other_entities_witness :
  ∃ w w',
    Put db (Some (shop_Order, order2)) w0 = Return (None, w)
    ∧ Put db (Some (shop_Order, order)) w = Return (None, w')
    ∧ token_of shop_Order order = Some "1"
    ∧ sprint_v (Some (TInt, VInt 2)) ≠ "1"
    ∧ ∃ r w1 w1',
        GetByID db (new shop_Order) (Some (TInt, VInt 2)) w = Return (r, w1)
        ∧ GetByID db (new shop_Order) (Some (TInt, VInt 2)) w' = Return (r, w1')
        ∧ r = (pointer_to shop_Order order2, None).
Proof.
  eassert (HP2 : Put db (Some (shop_Order, order2)) w0 = Return (None, _))
    by (vm_compute; reflexivity).
  match type of HP2 with
  | _ = Return (None, ?w) =>
      eassert (HP1 : Put db (Some (shop_Order, order)) w = Return (None, _))
        by (vm_compute; reflexivity)
  end.
  assert (Hid : sprint_v (Some (TInt, VInt 2)) ≠ "1") by (vm_compute; discriminate).
  eexists _, _. split; [exact HP2|]. split; [exact HP1|].
  split; [reflexivity|]. split; [exact Hid|].
  destruct (Put_keeps_other_entities db shop_Order order _ _ "1"
              (new shop_Order) (Some (TInt, VInt 2)) (TPtr shop_Order) shop_Order
              HP1 eq_refl eq_refl eq_refl eq_refl eq_refl
              eq_refl eq_refl eq_refl eq_refl Hid)
    as (r & w1 & w1' & HG & HG').
  exists r, w1, w1'. split; [exact HG|]. split; [exact HG'|].
  vm_compute in HG. injection HG as <- _. reflexivity.
Defined.

(** The entity file cannot be opened: the fresh variable stays fresh. *)
Lemma GetByID_keeps_store_and_destination_witness :
  ∃ err w',
    GetByID db (new newType) id123 w_denied = Return ((new newType, Some err), w')
    ∧ (∀ text, Unwrap err ≠ Some (JsonError text))
    ∧ nodes w' = nodes w_denied ∧ faults w' = faults w_denied.
Proof.
  eassert (HG : GetByID db (new newType) id123 w_denied
                = Return ((new newType, Some _), _)) by (vm_compute; reflexivity).
  eexists _, _. split; [exact HG|]. split; [intros text; discriminate|].
  destruct (GetByID_keeps_store_and_destination
              db (new newType) id123 w_denied _ _ _ HG) as (Hn & Hf & _).
  split; assumption.
Defined.

(** [GetByID(oldVar, 123)], the record passed by value. *)
Lemma GetByID_rejects_non_pointer_witness :
  Kind_of newType ≠ Pointer
  ∧ GetByID db (Some (newType, oldVar)) id123 w0
    = Return ((Some (newType, oldVar), Some ErrNonPointerDst), w0).
Proof.
  split; [discriminate|].
  apply (GetByID_rejects_non_pointer db newType oldVar id123 w0). discriminate.
Defined.

(** A [shop.Item] is stored under 1; [GetByID(&depot.Item{}, "1")] reads it
    and fills a [depot.Item]. *)
Lemma GetByID_reads_by_name_and_rendering_witness :
  ∃ w',
    Put db (Some (shop_Item, sold)) w0 = Return (None, w')
    ∧ token_of shop_Item sold = Some "1"
    ∧ sprint_v id1_text = "1"
    ∧ Name depot_Item = Name shop_Item
    ∧ ∃ data w'',
        Marshal (Some (shop_Item, sold)) = inl data
        ∧ GetByID db (new depot_Item) id1_text w'
          = Return ((fst (Unmarshal data (new depot_Item)),
                     (λ text, Errorf_w "unable to unmarshal data: " (JsonError text))
                       <$> snd (Unmarshal data (new depot_Item))), w'')
        ∧ fst (Unmarshal data (new depot_Item))
          = pointer_to depot_Item (VStruct [VInt 1; VString ""]).
Proof.
  eassert (HP : Put db (Some (shop_Item, sold)) w0 = Return (None, _))
    by (vm_compute; reflexivity).
  eexists. split; [exact HP|].
  split; [reflexivity|]. split; [reflexivity|]. split; [reflexivity|].
  destruct (GetByID_reads_by_name_and_rendering
              db shop_Item sold w0 _ "1" (new depot_Item) id1_text
              (TPtr depot_Item) depot_Item
              HP eq_refl eq_refl eq_refl eq_refl eq_refl eq_refl)
    as (data & w'' & HM & HG).
  exists data, w''. split; [exact HM|]. split; [exact HG|].
  vm_compute in HM. injection HM as <-. vm_compute. reflexivity.
Defined.



End MoreRuns.
